(** * An encrypted echo transport over NaCl box: model and properties

    The repository holds two versions of one Go program:

    - [main.go]: [SecureReader] and [SecureWriter] over a precomputed
      shared key ([generateSharedKey]); [Dial] and [Serve] are stubs.
    - the second file (module [Part000] below): [Box], [Reader],
      [Writer], [Dial], [Serve] and [handle], with the key exchange and
      the echo loop.

    Both are embedded here as functions in a small state monad over a
    world that holds the connection, the random source and a trace of
    the calls made.  Go slices are lists of bytes; a mutated buffer is
    passed in and returned; a Go panic is an outcome of its own. *)

From Stdlib Require Import String List ZArith Lia Bool Arith.
From Stdlib Require Import Strings.Byte.
Import ListNotations.

Set Implicit Arguments.

(** ** Bytes and Go slices *)


Definition bytes := list byte.

(** [[32]byte] and [[24]byte] arrays are lists; the code only builds
    them with these lengths. *)
Definition key := bytes.
Definition nonce24 := bytes.

Definition zeros (n : nat) : bytes := repeat x00 n.

(** Go's builtin [copy(dst, src)]: copies [min (len dst) (len src)]
    bytes to the front of [dst] and returns that count. *)
Definition go_copy (dst src : bytes) : bytes * nat :=
  let n := Nat.min (length dst) (length src) in
  (firstn n src ++ skipn n dst, n).

Definition is_zero (b : byte) : bool := Byte.eqb b x00.

(** [bytes.TrimLeft(s, "\x00")]. *)
Fixpoint TrimLeft (s : bytes) : bytes :=
  match s with
  | [] => []
  | b :: rest => if is_zero b then TrimLeft rest else s
  end.

(** [bytes.TrimRight(s, "\x00")]. *)
Definition TrimRight (s : bytes) : bytes := rev (TrimLeft (rev s)).

(** [bytes.Trim(s, "\x00")]: the cutset is the single byte 0x00, so
    the rune-wise trimming of the library removes exactly the leading
    and the trailing zero bytes. *)
Definition Trim (s : bytes) : bytes := TrimRight (TrimLeft s).

(** ** Errors *)

(** Go error values: [io.EOF], an error of the operating system or of
    the network, and [errors.New(text)]. *)
Inductive error : Type :=
| EOF
| OSError (code : nat)
| errors_New (text : string).

Definition error_eqb (a b : error) : bool :=
  match a, b with
  | EOF, EOF => true
  | OSError x, OSError y => Nat.eqb x y
  | errors_New s, errors_New t => String.eqb s t
  | _, _ => false
  end.

(** ** The NaCl primitives (golang.org/x/crypto/nacl)

    The library is not part of the repository; its operations are
    taken as a record of functions. *)
Record NaCl : Type := {
  (** curve25519 base point multiplication: the public key of a
      private key, as [box.GenerateKey] computes it *)
  scalar_base : key -> key;
  (** [box.Precompute(&shared, peersPublicKey, privateKey)] *)
  precompute : key -> key -> key;
  (** [secretbox.Seal(nil, message, nonce, key)] *)
  secretbox_seal : bytes -> nonce24 -> key -> bytes;
  (** [secretbox.Open(nil, box, nonce, key)] *)
  secretbox_open : bytes -> nonce24 -> key -> option bytes
}.

(** [secretbox.Overhead], the length of the authentication tag. *)
Definition Overhead : nat := 16.

(** ** The world: connection, random source, trace *)

(** Calls observed during a run. *)
Inductive event : Type :=
| EvDial (err : option error)
| EvRand (len : nat) (got : bytes) (err : option error)
| EvRead (buflen : nat) (n : nat) (err : option error) (after : bytes)
| EvWrite (data : bytes) (n : nat) (err : option error)
| EvSeal (message : bytes) (nonce : nonce24) (k : key)
| EvOpen (box : bytes) (nonce : nonce24) (k : key)
| EvPrint (err : error).

(** The collaborators of the program over a state [S]:
    [net.Dial], [rand.Read] (and the [rand.Reader] that
    [box.GenerateKey] reads), the underlying [Read] and [Write]. *)
Record IO (S : Type) : Type := {
  io_dial : S -> option error * S;
  (** asked for [len] bytes, gives the bytes it produced *)
  io_rand : S -> nat -> (bytes * option error) * S;
  (** given the buffer, gives the count, the error and the buffer
      as the call left it *)
  io_read : S -> bytes -> (nat * option error * bytes) * S;
  io_write : S -> bytes -> (nat * option error) * S
}.

Record world (S : Type) : Type := World {
  st : S;
  trace : list event
}.

(** A Go call either returns or panics. *)
Inductive result (A : Type) : Type :=
| Ok (a : A)
| Panic (msg : string).

Arguments Panic {A} msg.

Definition M (S A : Type) : Type := world S -> result A * world S.

Definition ret {S A} (a : A) : M S A := fun w => (Ok a, w).

Definition bind {S A B} (m : M S A) (f : A -> M S B) : M S B :=
  fun w =>
    match m w with
    | (Ok a, w') => f a w'
    | (Panic msg, w') => (Panic msg, w')
    end.

Definition panic {S A} (msg : string) : M S A := fun w => (Panic msg, w).

Definition emit {S} (e : event) : M S unit :=
  fun w => (Ok tt, World (st w) (trace w ++ [e])).

Declare Scope go_scope.
Delimit Scope go_scope with go.
Notation "x <- m ;; k" := (bind m (fun x => k))
  (at level 61, m at next level, right associativity) : go_scope.
Notation "' pat <- m ;; k" := (bind m (fun x => match x with pat => k end))
  (at level 61, pat pattern, m at next level, right associativity) : go_scope.
Notation "m ;;; k" := (bind m (fun _ => k))
  (at level 61, right associativity) : go_scope.
Open Scope go_scope.

(** Slice expression [s[lo:]]: panics when [lo > len s]. *)
Definition slice_from {S} (lo : nat) (s : bytes) : M S bytes :=
  if Nat.leb lo (length s) then ret (skipn lo s)
  else panic "slice bounds out of range".

(** Slice expression [s[:hi]]; the buffers of the program have their
    capacity equal to their length, so it panics when [hi > len s]. *)
Definition slice_to {S} (hi : nat) (s : bytes) : M S bytes :=
  if Nat.leb hi (length s) then ret (firstn hi s)
  else panic "slice bounds out of range".

Section Primitives.
Context {S : Type} (io : IO S) (nacl : NaCl).

Definition net_Dial : M S (option error) :=
  fun w => let '(e, s) := io_dial io (st w) in
           (Ok e, World s (trace w ++ [EvDial e])).

(** [rand.Read(b)] on a zeroed array [b]: the array after the call,
    the count and the error. *)
Definition rand_Read (b : bytes) : M S (bytes * nat * option error) :=
  fun w => let '(got, e, s) := io_rand io (st w) (length b) in
           let '(b', n) := go_copy b got in
           (Ok (b', n, e), World s (trace w ++ [EvRand (length b) got e])).

Definition conn_Read (p : bytes) : M S (bytes * nat * option error) :=
  fun w => let '(n, e, p', s) := io_read io (st w) p in
           (Ok (p', n, e), World s (trace w ++ [EvRead (length p) n e p'])).

Definition conn_Write (data : bytes) : M S (nat * option error) :=
  fun w => let '(n, e, s) := io_write io (st w) data in
           (Ok (n, e), World s (trace w ++ [EvWrite data n e])).

(** [box.SealAfterPrecomputation(out, message, nonce, sharedKey)]
    appends the sealed box to [out]. *)
Definition box_SealAfterPrecomputation
    (out message : bytes) (nonce : nonce24) (k : key) : M S bytes :=
  emit (EvSeal message nonce k) ;;;
  ret (out ++ secretbox_seal nacl message nonce k).

(** [box.OpenAfterPrecomputation(nil, box, nonce, sharedKey)]. *)
Definition box_OpenAfterPrecomputation
    (box : bytes) (nonce : nonce24) (k : key) : M S (option bytes) :=
  emit (EvOpen box nonce k) ;;;
  ret (secretbox_open nacl box nonce k).

(** [box.Seal]: precomputes the shared key, then seals. *)
Definition box_Seal (out message : bytes) (nonce : nonce24)
    (peersPublicKey privateKey : key) : M S bytes :=
  box_SealAfterPrecomputation out message nonce
    (precompute nacl peersPublicKey privateKey).

(** [box.Open]: precomputes the shared key, then opens. *)
Definition box_Open (box : bytes) (nonce : nonce24)
    (peersPublicKey privateKey : key) : M S (option bytes) :=
  box_OpenAfterPrecomputation box nonce
    (precompute nacl peersPublicKey privateKey).

(** [box.GenerateKey(rand.Reader)]: 32 random bytes are the private
    key, the public key is their base point multiple. *)
Definition box_GenerateKey : M S (key * key * option error) :=
  '(priv, _, e) <- rand_Read (zeros 32) ;;
  match e with
  | Some err => ret ([], [], Some err)
  | None => ret (scalar_base nacl priv, priv, None)
  end.
End Primitives.

(** Dereference of a [*[32]byte]: a nil pointer panics. *)
Definition deref {S} (p : option key) : M S key :=
  match p with
  | Some k => ret k
  | None => panic "invalid memory address or nil pointer dereference"
  end.

(** ** The second source file: Box, Reader, Writer, Dial, handle *)

Module Part000.

Definition MAX_BUFFER : nat := 1024.

(** [type Box struct { PublicKey, PeersPublicKey, privateKey *[32]byte }] *)
Record Box : Type := {
  PublicKey : option key;
  PeersPublicKey : option key;
  privateKey : option key
}.

Definition NewBoxKeys (pub peers priv : option key) : Box :=
  {| PublicKey := pub; PeersPublicKey := peers; privateKey := priv |}.

(** [bx.PeersPublicKey = &peersKey] *)
Definition set_PeersPublicKey (bx : Box) (peersKey : key) : Box :=
  {| PublicKey := PublicKey bx;
     PeersPublicKey := Some peersKey;
     privateKey := privateKey bx |}.

(** The error of [Decrypt]. *)
Definition errDecrypt : error :=
  errors_New "Decrypt: cannot decrypt the message".

(** [type Reader struct { bx Box; rd io.Reader }]: the underlying
    reader is the connection of the world. *)
Record Reader : Type := { r_bx : Box }.

(** [type Writer struct { bx Box; wr io.Writer }]. *)
Record Writer : Type := { w_bx : Box }.

Definition NewReader (bx : Box) : Reader := {| r_bx := bx |}.
Definition NewWriter (bx : Box) : Writer := {| w_bx := bx |}.

Record Client : Type := { c_rd : Reader; c_wr : Writer }.
Record Server : Type := { s_rd : Reader; s_wr : Writer }.

Definition NewClient (rd : Reader) (wr : Writer) : Client :=
  {| c_rd := rd; c_wr := wr |}.
Definition NewServer (rd : Reader) (wr : Writer) : Server :=
  {| s_rd := rd; s_wr := wr |}.

(** [NewSecureReader(r, priv, pub)]: the box gets [pub] both as its
    own public key and as the peer's. *)
Definition NewSecureReader (priv pub : key) : Reader :=
  NewReader (NewBoxKeys (Some pub) (Some pub) (Some priv)).

(** [NewSecureWriter(w, priv, pub)]. *)
Definition NewSecureWriter (priv pub : key) : Writer :=
  NewWriter (NewBoxKeys (Some pub) (Some pub) (Some priv)).

(** How the client mode of [main] ends: [log.Fatal(err)], or the
    bytes it printed before the newline. *)
Inductive main_exit : Type :=
| LogFatal (e : error)
| Printed (out : bytes).

(** How a run of [handle] ends in the model: the function returned,
    or the loop was still running when the fuel ran out. *)
Inductive exit : Type := Returned | Running.

Section WithWorld.
Context {S : Type} (io : IO S) (nacl : NaCl).

Definition NewBox : M S (Box * option error) :=
  '(pub, priv, err) <- box_GenerateKey io nacl ;;
  match err with
  | Some e => ret (NewBoxKeys None None None, Some e)
  | None => ret (NewBoxKeys (Some pub) None (Some priv), None)
  end.

Definition Encrypt (b : Box) (m : bytes) : M S (bytes * option error) :=
  '(nonce, _, err) <- rand_Read io (zeros 24) ;;
  match err with
  | Some e => ret ([], Some e)
  | None =>
      peers <- deref (PeersPublicKey b) ;;
      priv <- deref (privateKey b) ;;
      em <- box_Seal nacl nonce m nonce peers priv ;;
      ret (em, None)
  end.

Definition Decrypt (b : Box) (em : bytes) : M S (bytes * option error) :=
  let nonce := fst (go_copy (zeros 24) em) in
  box <- slice_from 24 em ;;
  peers <- deref (PeersPublicKey b) ;;
  priv <- deref (privateKey b) ;;
  r <- box_Open nacl box nonce peers priv ;;
  match r with
  | Some dm => ret (dm, None)
  | None => ret ([], Some errDecrypt)
  end.

(** [Reader.Read(p)]: the buffer after the call, [n] and [err]. *)
Definition Reader_Read (r : Reader) (p : bytes)
  : M S (bytes * nat * option error) :=
  '(p1, n, err) <- conn_Read io p ;;
  match err with
  | Some e => ret (p1, n, Some e)
  | None =>
      em <- slice_to n p1 ;;
      '(dm, err) <- Decrypt (r_bx r) em ;;
      match err with
      | Some e => ret (p1, n, Some e)
      | None =>
          let '(p2, n) := go_copy p1 dm in
          ret (p2, n, None)
      end
  end.

Definition Writer_Write (w : Writer) (p : bytes)
  : M S (nat * option error) :=
  '(em, err) <- Encrypt (w_bx w) p ;;
  match err with
  | Some e => ret (0, Some e)
  | None =>
      '(n, err) <- conn_Write io em ;;
      match err with
      | Some e => ret (n, Some e)
      | None => ret (n, None)
      end
  end.

Definition Client_Read (c : Client) (p : bytes) := Reader_Read (c_rd c) p.
Definition Client_Write (c : Client) (p : bytes) := Writer_Write (c_wr c) p.

(** [Dial(addr)]: the key exchange of the initiator. *)
Definition Dial : M S (option Client * option error) :=
  err <- net_Dial io ;;
  match err with
  | Some e => ret (None, Some e)
  | None =>
      '(bx, err) <- NewBox ;;
      match err with
      | Some e => ret (None, Some e)
      | None =>
          '(key, n, _) <- conn_Read io (zeros 32) ;;
          src <- slice_to n key ;;
          let peersKey := fst (go_copy (zeros 32) src) in
          let bx := set_PeersPublicKey bx peersKey in
          pub <- deref (PublicKey bx) ;;
          '(_, err) <- conn_Write io pub ;;
          match err with
          | Some e => ret (None, Some e)
          | None =>
              ret (Some (NewClient (NewReader bx) (NewWriter bx)), None)
          end
      end
  end.

(** The key exchange of [handle], up to [NewServer]: [None] when
    the function returned before it. *)
Definition handle_exchange : M S (option Server) :=
  '(bx, err) <- NewBox ;;
  match err with
  | Some e => emit (EvPrint e) ;;; ret None
  | None =>
      pub <- deref (PublicKey bx) ;;
      '(_, err) <- conn_Write io pub ;;
      match err with
      | Some e => emit (EvPrint e) ;;; ret None
      | None =>
          '(key, n, err) <- conn_Read io (zeros 32) ;;
          match err with
          | Some e => emit (EvPrint e) ;;; ret None
          | None =>
              src <- slice_to n key ;;
              let peersKey := fst (go_copy (zeros 32) src) in
              let bx := set_PeersPublicKey bx peersKey in
              ret (Some (NewServer (NewReader bx) (NewWriter bx)))
          end
      end
  end.

(** One turn of the echo loop of [handle]: [true] to go on,
    [false] when the function returns. *)
Definition handle_turn (s : Server) : M S bool :=
  '(p, n, err) <- Reader_Read (s_rd s) (zeros MAX_BUFFER) ;;
  match err with
  | Some e =>
      if error_eqb e EOF then ret false
      else emit (EvPrint e) ;;; ret false
  | None =>
      out <- slice_to n p ;;
      '(_, err) <- Writer_Write (s_wr s) out ;;
      match err with
      | Some e => emit (EvPrint e) ;;; ret false
      | None => ret true
      end
  end.

Fixpoint handle_loop (fuel : nat) (s : Server) : M S exit :=
  match fuel with
  | O => ret Running
  | Datatypes.S fuel' =>
      go_on <- handle_turn s ;;
      if go_on then handle_loop fuel' s else ret Returned
  end.

Definition handle (fuel : nat) : M S exit :=
  established <- handle_exchange ;;
  match established with
  | None => ret Returned
  | Some s => handle_loop fuel s
  end.

(** The client mode of [main], for [os.Args = [prog, port, message]]:
    dial, write the message, read the answer into a buffer as long as
    the message, print what was read. *)
Definition main_client (message : bytes) : M S main_exit :=
  '(conn, err) <- Dial ;;
  match err with
  | Some e => ret (LogFatal e)
  | None =>
      match conn with
      | None => panic "invalid memory address or nil pointer dereference"
      | Some c =>
          '(_, err) <- Client_Write c message ;;
          match err with
          | Some e => ret (LogFatal e)
          | None =>
              '(buf, n, err) <- Client_Read c (zeros (length message)) ;;
              match err with
              | Some e => ret (LogFatal e)
              | None =>
                  out <- slice_to n buf ;;
                  ret (Printed out)
              end
          end
      end
  end.
End WithWorld.

End Part000.

(** ** main.go: SecureReader and SecureWriter over a shared key *)

Module MainGo.

Definition errInvalidKeyPair : error :=
  errors_New "Error happen while decrypt the message. It seem like the public/private key pair is invalid.".

Record SecureReader : Type := { r_key : key }.
Record SecureWriter : Type := { w_key : key }.

Section WithWorld.
Context {S : Type} (io : IO S) (nacl : NaCl).

Definition generateSharedKey (priv pub : key) : key :=
  precompute nacl pub priv.

Definition NewSecureReader (priv pub : key) : SecureReader :=
  {| r_key := generateSharedKey priv pub |}.

Definition NewSecureWriter (priv pub : key) : SecureWriter :=
  {| w_key := generateSharedKey priv pub |}.

(** [SecureReader.Read(p)]: the buffer after the call, [n], [err]. *)
Definition SecureReader_Read (r : SecureReader) (p : bytes)
  : M S (bytes * Z * option error) :=
  '(p1, n, err) <- conn_Read io p ;;
  match err with
  | Some e => ret (p1, Z.of_nat n, Some e)
  | None =>
      let em := Trim p1 in
      let nonce := fst (go_copy (zeros 24) em) in
      box <- slice_from 24 em ;;
      r <- box_OpenAfterPrecomputation nacl box nonce (r_key r) ;;
      match r with
      | Some dm =>
          let '(p2, n) := go_copy p1 dm in
          ret (p2, Z.of_nat n, None)
      | None => ret (p1, (-1)%Z, Some errInvalidKeyPair)
      end
  end.

Definition SecureWriter_Write (w : SecureWriter) (p : bytes)
  : M S (Z * option error) :=
  '(nonce, n, err) <- rand_Read io (zeros 24) ;;
  match err with
  | Some e => ret (Z.of_nat n, Some e)
  | None =>
      em <- box_SealAfterPrecomputation nacl nonce p nonce (w_key w) ;;
      '(n, err) <- conn_Write io em ;;
      match err with
      | Some e => ret (Z.of_nat n, Some e)
      | None => ret (Z.of_nat (length em), None)
      end
  end.
End WithWorld.

End MainGo.

(** ** A scripted connection

    A concrete world to run the program on: what the peer sends
    arrives in segments, a read takes from the first segment what fits
    the buffer and leaves the rest for the next read, as a stream
    socket does. *)

Inductive segment : Type :=
| Data (d : bytes)
| Fail (e : error).

Record sim : Type := {
  dial_error : option error;
  inbox : list segment;
  rng : list segment;
  write_errors : list (option error);
  outbox : list bytes
}.

Definition sim_dial (s : sim) : option error * sim := (dial_error s, s).

Definition sim_rand (s : sim) (len : nat) : (bytes * option error) * sim :=
  match rng s with
  | [] => ([], Some (OSError 0), s)
  | Fail e :: rest =>
      ([], Some e,
       {| dial_error := dial_error s; inbox := inbox s; rng := rest;
          write_errors := write_errors s; outbox := outbox s |})
  | Data d :: rest =>
      (firstn len d, None,
       {| dial_error := dial_error s; inbox := inbox s; rng := rest;
          write_errors := write_errors s; outbox := outbox s |})
  end.

Definition sim_read (s : sim) (p : bytes) : (nat * option error * bytes) * sim :=
  match inbox s with
  | [] => (0, Some EOF, p, s)
  | Fail e :: rest =>
      (0, Some e, p,
       {| dial_error := dial_error s; inbox := rest; rng := rng s;
          write_errors := write_errors s; outbox := outbox s |})
  | Data d :: rest =>
      let n := Nat.min (length p) (length d) in
      let left := if Nat.ltb n (length d) then Data (skipn n d) :: rest else rest in
      (n, None, firstn n d ++ skipn n p,
       {| dial_error := dial_error s; inbox := left; rng := rng s;
          write_errors := write_errors s; outbox := outbox s |})
  end.

Definition sim_write (s : sim) (data : bytes) : (nat * option error) * sim :=
  match write_errors s with
  | Some e :: rest =>
      (0, Some e,
       {| dial_error := dial_error s; inbox := inbox s; rng := rng s;
          write_errors := rest; outbox := outbox s |})
  | None :: rest =>
      (length data, None,
       {| dial_error := dial_error s; inbox := inbox s; rng := rng s;
          write_errors := rest; outbox := outbox s ++ [data] |})
  | [] =>
      (length data, None,
       {| dial_error := dial_error s; inbox := inbox s; rng := rng s;
          write_errors := []; outbox := outbox s ++ [data] |})
  end.

Definition sim_io : IO sim :=
  {| io_dial := sim_dial; io_rand := sim_rand;
     io_read := sim_read; io_write := sim_write |}.

Definition start (s : sim) : world sim := World s [].

(** ** A small instance of the primitives

    An insecure stand-in with the functional behaviour of the library,
    to run the program on concrete inputs: keys agree by exclusive or,
    the box is a keyed checksum of 16 bytes before the masked message. *)

Definition xor8 (x y : bool * (bool * (bool * (bool * (bool * (bool * (bool * bool)))))))
  : bool * (bool * (bool * (bool * (bool * (bool * (bool * bool)))))) :=
  let '(a0, (a1, (a2, (a3, (a4, (a5, (a6, a7))))))) := x in
  let '(b0, (b1, (b2, (b3, (b4, (b5, (b6, b7))))))) := y in
  (xorb a0 b0, (xorb a1 b1, (xorb a2 b2, (xorb a3 b3,
   (xorb a4 b4, (xorb a5 b5, (xorb a6 b6, xorb a7 b7))))))).

Definition byte_xor (a b : byte) : byte :=
  Byte.of_bits (xor8 (Byte.to_bits a) (Byte.to_bits b)).

Fixpoint xor_bytes (a b : bytes) : bytes :=
  match a, b with
  | x :: a', y :: b' => byte_xor x y :: xor_bytes a' b'
  | _, _ => []
  end.

Definition xor_fold (l : bytes) : byte := fold_right byte_xor x00 l.

Definition len_byte (l : bytes) : byte :=
  match Byte.of_nat (length l mod 256) with
  | Some b => b
  | None => x00
  end.

Fixpoint bytes_eqb (a b : bytes) : bool :=
  match a, b with
  | [], [] => true
  | x :: a', y :: b' => Byte.eqb x y && bytes_eqb a' b'
  | _, _ => false
  end.

Definition toy_scalar_base (priv : key) : key := map (byte_xor x2a) priv.

Definition toy_precompute (pub priv : key) : key :=
  xor_bytes pub (toy_scalar_base priv).

Definition toy_mask (nonce : nonce24) (k : key) : byte :=
  byte_xor (xor_fold nonce) (xor_fold k).

Definition toy_tag (ct : bytes) (nonce : nonce24) (k : key) : bytes :=
  map (byte_xor (byte_xor (xor_fold ct) (len_byte ct)))
      (firstn Overhead (k ++ nonce ++ zeros Overhead)).

Definition toy_seal (m : bytes) (nonce : nonce24) (k : key) : bytes :=
  let ct := map (byte_xor (toy_mask nonce k)) m in
  toy_tag ct nonce k ++ ct.

Definition toy_open (box : bytes) (nonce : nonce24) (k : key) : option bytes :=
  if Nat.ltb (length box) Overhead then None
  else
    let tag := firstn Overhead box in
    let ct := skipn Overhead box in
    if bytes_eqb tag (toy_tag ct nonce k)
    then Some (map (byte_xor (toy_mask nonce k)) ct)
    else None.

Definition toy : NaCl :=
  {| scalar_base := toy_scalar_base;
     precompute := toy_precompute;
     secretbox_seal := toy_seal;
     secretbox_open := toy_open |}.

(** ** Concrete data for the runs below *)

Definition a_priv : key := repeat x01 16 ++ repeat x5c 16.
Definition b_priv : key := repeat x07 20 ++ repeat xe3 12.
Definition a_pub : key := Eval vm_compute in toy_scalar_base a_priv.
Definition b_pub : key := Eval vm_compute in toy_scalar_base b_priv.

(** The five bytes of "hello". *)
Definition hello : bytes := [x68; x65; x6c; x6c; x6f].

Definition draw1 : bytes := repeat x11 10 ++ repeat x9d 14.
Definition draw2 : bytes := repeat x42 24.

(** The boxes of the two peers after a key exchange. *)
Definition boxA : Part000.Box :=
  Part000.NewBoxKeys (Some a_pub) (Some b_pub) (Some a_priv).
Definition boxB : Part000.Box :=
  Part000.NewBoxKeys (Some b_pub) (Some a_pub) (Some b_priv).

(** A quiet connection with the random source holding [draws]. *)
Definition quiet (draws : list segment) : sim :=
  {| dial_error := None; inbox := []; rng := draws;
     write_errors := []; outbox := [] |}.

(** A connection on which the peer's bytes arrive as [segs]. *)
Definition incoming (segs draws : list segment) : sim :=
  {| dial_error := None; inbox := segs; rng := draws;
     write_errors := []; outbox := [] |}.

(** The frame that [boxA] makes of a message under nonce [n]. *)
Definition frame_of (m : bytes) (n : nonce24) : bytes :=
  n ++ toy_seal m n (toy_precompute b_pub a_priv).


(** The read events of a trace. *)
Definition is_read (e : event) : bool :=
  match e with EvRead _ _ _ _ => true | _ => false end.

Definition reads (t : list event) : list event := filter is_read t.

(** The bytes that the random source gives to a call of [rand.Read]
    on a 24-byte array made in world [w]. *)
Definition drawn {S : Type} (io : IO S) (w : world S) : bytes :=
  fst (fst (io_rand io (st w) 24)).

(** A nonce whose first byte is zero. *)
Definition draw0 : bytes := x00 :: repeat x11 23.

(** A message of 985 bytes, one more than fits a frame of
    [MAX_BUFFER] bytes. *)
Definition long_message : bytes := repeat x41 985.

(** The bytes of a peer key that arrive in two segments. *)
Definition key_part1 : bytes := repeat xaa 10.
Definition key_part2 : bytes := repeat xbb 22.

(** The frame of message [m] under nonce [n] and shared key [k]. *)
Definition sealed_frame (nacl : NaCl) (k : key) (m : bytes) (n : nonce24) : bytes :=
  n ++ secretbox_seal nacl m n k.

(** An exchange with the echo server: the message, the nonce of the
    frame that carries it in, the nonce the server draws for the echo. *)
Definition exchange : Type := (bytes * nonce24 * nonce24)%type.

Definition ex_message (x : exchange) : bytes := fst (fst x).
Definition ex_nonce_in (x : exchange) : nonce24 := snd (fst x).
Definition ex_nonce_out (x : exchange) : nonce24 := snd x.

(** The segments that arrive, the draws of the server, the frames it
    is to write. *)
Definition frames_in (nacl : NaCl) (k : key) (xs : list exchange) : list segment :=
  map (fun x => Data (sealed_frame nacl k (ex_message x) (ex_nonce_in x))) xs.

Definition draws_out (xs : list exchange) : list segment :=
  map (fun x => Data (ex_nonce_out x)) xs.

Definition frames_out (nacl : NaCl) (k : key) (xs : list exchange) : list bytes :=
  map (fun x => sealed_frame nacl k (ex_message x) (ex_nonce_out x)) xs.

(** An exchange is well formed when both nonces have 24 bytes and the
    frame of the message fits the buffer of the server. *)
Definition exchange_ok (x : exchange) : Prop :=
  length (ex_nonce_in x) = 24 /\ length (ex_nonce_out x) = 24 /\
  length (ex_message x) <= 984.

(** A connection with the state of the scripted echo run. *)
Definition echo_sim (d : option error) (segs draws : list segment)
    (out : list bytes) : sim :=
  {| dial_error := d; inbox := segs; rng := draws;
     write_errors := []; outbox := out |}.

(** The write events of a trace. *)
Definition is_write (e : event) : bool :=
  match e with EvWrite _ _ _ => true | _ => false end.

Definition writes (t : list event) : list event := filter is_write t.

(** The events of a trace that touch the connection or the primitives:
    all but the draw of random bytes and the dial. *)
Definition touches_conn (e : event) : bool :=
  match e with
  | EvRead _ _ _ _ | EvWrite _ _ _ => true
  | _ => false
  end.

(** ** Lists, copies and trimming *)

Lemma zeros_length (n : nat) : length (zeros n) = n.
Proof. apply repeat_length. Qed.

Lemma go_copy_length (dst src : bytes) :
  length (fst (go_copy dst src)) = length dst.
Proof.
  unfold go_copy; simpl.
  rewrite length_app, length_firstn, length_skipn. lia.
Qed.

(** Copying a source at least as long as the array fills it with the
    front of the source. *)
Lemma go_copy_fill (dst src : bytes) :
  length dst <= length src ->
  fst (go_copy dst src) = firstn (length dst) src.
Proof.
  intros Hle. unfold go_copy; simpl.
  rewrite Nat.min_l by lia.
  rewrite skipn_all. apply app_nil_r.
Qed.

Lemma go_copy_exact (dst src : bytes) :
  length src = length dst -> fst (go_copy dst src) = src.
Proof.
  intros Heq. rewrite go_copy_fill by lia.
  rewrite <- Heq. apply firstn_all.
Qed.

(** [TrimLeft] keeps a suffix. *)
Lemma TrimLeft_suffix (s : bytes) : exists z, s = z ++ TrimLeft s.
Proof.
  induction s as [|b s IH]; simpl.
  - exists []; reflexivity.
  - destruct (is_zero b).
    + destruct IH as [z Hz]. exists (b :: z). simpl. now f_equal.
    + exists []; reflexivity.
Qed.

Lemma TrimLeft_head (s : bytes) (b : byte) (t : bytes) :
  TrimLeft s = b :: t -> b <> x00.
Proof.
  induction s as [|c s IH]; simpl; [discriminate|].
  destruct (is_zero c) eqn:Hc; [exact IH|].
  intros Heq; injection Heq as -> _.
  now apply Byte.eqb_false.
Qed.

(** [TrimRight] keeps a prefix. *)
Lemma TrimRight_prefix (s : bytes) : exists z, s = TrimRight s ++ z.
Proof.
  unfold TrimRight.
  destruct (TrimLeft_suffix (rev s)) as [z Hz].
  exists (rev z).
  rewrite <- rev_app_distr, <- Hz. symmetry; apply rev_involutive.
Qed.

Lemma TrimRight_last (s t : bytes) (b : byte) :
  TrimRight s = t ++ [b] -> b <> x00.
Proof.
  unfold TrimRight. intros Heq.
  apply (f_equal (@rev byte)) in Heq.
  rewrite rev_involutive, rev_app_distr in Heq. simpl in Heq.
  eapply TrimLeft_head; eauto.
Qed.

Lemma Trim_head (s : bytes) (b : byte) (t : bytes) :
  Trim s = b :: t -> b <> x00.
Proof.
  unfold Trim. intros Heq.
  destruct (TrimRight_prefix (TrimLeft s)) as [z Hz].
  rewrite Heq in Hz. simpl in Hz.
  eapply TrimLeft_head; eauto.
Qed.

Lemma Trim_last (s t : bytes) (b : byte) : Trim s = t ++ [b] -> b <> x00.
Proof. unfold Trim. apply TrimRight_last. Qed.

(** What [Trim] returns never begins or ends with a zero byte. *)
Lemma Trim_differs (s f : bytes) :
  f <> [] -> hd x01 f = x00 \/ last f x01 = x00 -> Trim s <> f.
Proof.
  intros Hne [Hhd | Hlast] Heq.
  - destruct f as [|b t]; [congruence|]. simpl in Hhd.
    now apply (Trim_head _ Heq).
  - destruct (exists_last Hne) as [t [b ->]].
    rewrite last_last in Hlast.
    now apply (Trim_last _ _ Heq).
Qed.

(** ** The small instance has the functional behaviour of the library *)

Lemma xor8_comm x y : xor8 x y = xor8 y x.
Proof.
  destruct x as (a0 & a1 & a2 & a3 & a4 & a5 & a6 & a7).
  destruct y as (b0 & b1 & b2 & b3 & b4 & b5 & b6 & b7).
  unfold xor8.
  repeat (f_equal; try apply xorb_comm).
Qed.

Lemma xor8_cancel x y : xor8 x (xor8 x y) = y.
Proof.
  destruct x as (a0 & a1 & a2 & a3 & a4 & a5 & a6 & a7).
  destruct y as (b0 & b1 & b2 & b3 & b4 & b5 & b6 & b7).
  unfold xor8.
  repeat (f_equal; try (rewrite <- xorb_assoc, xorb_nilpotent; apply xorb_false_l)).
Qed.

Lemma byte_xor_comm (a b : byte) : byte_xor a b = byte_xor b a.
Proof. unfold byte_xor. now rewrite xor8_comm. Qed.

Lemma byte_xor_cancel (a b : byte) : byte_xor a (byte_xor a b) = b.
Proof.
  unfold byte_xor.
  rewrite Byte.to_bits_of_bits, xor8_cancel.
  apply Byte.of_bits_to_bits.
Qed.

Lemma xor_bytes_comm (a b : bytes) : xor_bytes a b = xor_bytes b a.
Proof.
  revert b; induction a as [|x a IH]; intros [|y b]; simpl; try reflexivity.
  now rewrite byte_xor_comm, IH.
Qed.

Lemma mask_cancel (k : byte) (m : bytes) :
  map (byte_xor k) (map (byte_xor k) m) = m.
Proof.
  induction m as [|x m IH]; simpl; [reflexivity|].
  now rewrite byte_xor_cancel, IH.
Qed.

Lemma bytes_eqb_refl (a : bytes) : bytes_eqb a a = true.
Proof.
  induction a as [|x a IH]; simpl; [reflexivity|].
  now rewrite IH, (Byte.byte_dec_lb (eq_refl x)).
Qed.

Lemma toy_tag_length (ct : bytes) (n : nonce24) (k : key) :
  length (toy_tag ct n k) = Overhead.
Proof.
  unfold toy_tag.
  rewrite length_map, length_firstn, !length_app, zeros_length. lia.
Qed.

(** Both peers compute the same shared key. *)
Lemma toy_dh_agree (a b : key) :
  precompute toy (scalar_base toy b) a = precompute toy (scalar_base toy a) b.
Proof. simpl. unfold toy_precompute. apply xor_bytes_comm. Qed.

(** Opening a sealed box under its nonce and key gives the message. *)
Lemma toy_open_seal (m : bytes) (n : nonce24) (k : key) :
  secretbox_open toy (secretbox_seal toy m n k) n k = Some m.
Proof.
  simpl. unfold toy_open, toy_seal.
  set (ct := map (byte_xor (toy_mask n k)) m).
  assert (Hlen : length (toy_tag ct n k) = Overhead) by apply toy_tag_length.
  remember (toy_tag ct n k) as tag eqn:Htag.
  rewrite <- Hlen, length_app.
  destruct (Nat.ltb_spec (length tag + length ct) (length tag)) as [Hlt|_]; [lia|].
  rewrite firstn_app, skipn_app, firstn_all, skipn_all, Nat.sub_diag.
  simpl. rewrite app_nil_r, <- Htag, bytes_eqb_refl.
  f_equal. apply mask_cancel.
Qed.

(** A sealed box is [Overhead] bytes longer than the message. *)
Lemma toy_seal_length (m : bytes) (n : nonce24) (k : key) :
  length (secretbox_seal toy m n k) = length m + Overhead.
Proof.
  simpl. unfold toy_seal.
  rewrite length_app, toy_tag_length, length_map. lia.
Qed.

(** A box shorter than the tag is rejected. *)
Lemma toy_open_short (c : bytes) (n : nonce24) (k : key) :
  length c < Overhead -> secretbox_open toy c n k = None.
Proof.
  intros Hlt. simpl. unfold toy_open.
  destruct (Nat.ltb_spec (length c) Overhead); [reflexivity|lia].
Qed.

(** The scripted connection reports a full write whenever it reports
    no error, as [io.Writer] requires. *)
Lemma sim_write_full (s : sim) (d : bytes) (n : nat) (s' : sim) :
  io_write sim_io s d = (n, None, s') -> n = length d.
Proof.
  simpl. unfold sim_write.
  destruct (write_errors s) as [|[e|] rest]; intros Heq;
    now inversion Heq.
Qed.

(** ** How the functions run *)

Arguments zeros : simpl never.
Arguments go_copy : simpl never.
Arguments firstn : simpl never.
Arguments skipn : simpl never.

Lemma trace_snoc2 (t : list event) (a b : event) :
  (t ++ [a]) ++ [b] = t ++ [a; b].
Proof. now rewrite <- app_assoc. Qed.

Lemma trace_snoc3 (t : list event) (a b c : event) :
  ((t ++ [a]) ++ [b]) ++ [c] = t ++ [a; b; c].
Proof. now rewrite <- !app_assoc. Qed.

Lemma nonce_of_frame (em : bytes) :
  24 <= length em -> fst (go_copy (zeros 24) em) = firstn 24 em.
Proof.
  intros Hle. rewrite go_copy_fill; rewrite zeros_length; [reflexivity|lia].
Qed.

Section Runs.
Context {S : Type} (io : IO S) (nacl : NaCl).

(** [Encrypt] when the random source gives its bytes: the frame is
    the nonce array followed by the sealed box. *)
Lemma Encrypt_run (b : Part000.Box) (m : bytes) (w : world S)
      (got : bytes) (s1 : S) (peers priv : key) :
  io_rand io (st w) 24 = (got, None, s1) ->
  Part000.PeersPublicKey b = Some peers ->
  Part000.privateKey b = Some priv ->
  let nonce := fst (go_copy (zeros 24) got) in
  let k := precompute nacl peers priv in
  Part000.Encrypt io nacl b m w =
    (Ok (nonce ++ secretbox_seal nacl m nonce k, None),
     World s1 (trace w ++ [EvRand 24 got None; EvSeal m nonce k])).
Proof.
  intros Hr Hp Hk nonce k.
  unfold Part000.Encrypt, rand_Read, bind.
  rewrite zeros_length, Hr.
  subst nonce. destruct (go_copy (zeros 24) got) as [nonce n].
  rewrite Hp, Hk. simpl.
  unfold box_Seal, box_SealAfterPrecomputation, bind, emit, ret. simpl.
  now rewrite trace_snoc2.
Qed.

(** A successful [Encrypt] drew its nonce and sealed under it. *)
Lemma Encrypt_ok_inv (b : Part000.Box) (m em : bytes) (w w1 : world S) :
  Part000.Encrypt io nacl b m w = (Ok (em, None), w1) ->
  exists got s1 peers priv,
    io_rand io (st w) 24 = (got, None, s1) /\
    Part000.PeersPublicKey b = Some peers /\
    Part000.privateKey b = Some priv.
Proof.
  unfold Part000.Encrypt, rand_Read, bind.
  rewrite zeros_length.
  destruct (io_rand io (st w) 24) as [[got e] s1].
  destruct (go_copy (zeros 24) got) as [nonce n].
  destruct e as [e|]; [unfold ret; intros H; inversion H|].
  destruct (Part000.PeersPublicKey b) as [peers|];
    [|simpl; intros H; inversion H].
  destruct (Part000.privateKey b) as [priv|];
    [|simpl; intros H; inversion H].
  intros _. now exists got, s1, peers, priv.
Qed.

(** [Decrypt] on at least 24 bytes: the first 24 are the nonce, the
    rest goes to the primitive, whose answer decides. *)
Lemma Decrypt_run (b : Part000.Box) (em : bytes) (w : world S)
      (peers priv : key) :
  24 <= length em ->
  Part000.PeersPublicKey b = Some peers ->
  Part000.privateKey b = Some priv ->
  let k := precompute nacl peers priv in
  Part000.Decrypt nacl b em w =
    (Ok match secretbox_open nacl (skipn 24 em) (firstn 24 em) k with
        | Some dm => (dm, None)
        | None => ([], Some Part000.errDecrypt)
        end,
     World (st w) (trace w ++ [EvOpen (skipn 24 em) (firstn 24 em) k])).
Proof.
  intros Hle Hp Hk k.
  unfold Part000.Decrypt, slice_from, bind.
  rewrite nonce_of_frame by exact Hle.
  destruct (Nat.leb_spec 24 (length em)) as [_|Hlt]; [|lia].
  rewrite Hp, Hk. simpl.
  unfold box_Open, box_OpenAfterPrecomputation, bind, emit, ret. simpl.
  fold k. now destruct (secretbox_open nacl (skipn 24 em) (firstn 24 em) k).
Qed.

(** [Decrypt] on fewer than 24 bytes panics at the slice expression. *)
Lemma Decrypt_panics (b : Part000.Box) (em : bytes) (w : world S) :
  length em < 24 ->
  Part000.Decrypt nacl b em w = (Panic "slice bounds out of range", w).
Proof.
  intros Hlt. unfold Part000.Decrypt, slice_from, bind.
  destruct (Nat.leb_spec 24 (length em)) as [Hle|_]; [lia|].
  reflexivity.
Qed.
End Runs.

(** ** The frame codec *)

Section Codec.
Context {S : Type} (io : IO S) (nacl : NaCl).

(** What the program relies on from the library: both sides of a
    key exchange precompute the same key, and a sealed box opens
    under the nonce and key it was sealed with. *)
Hypothesis dh_agree : forall a b : key,
  precompute nacl (scalar_base nacl b) a = precompute nacl (scalar_base nacl a) b.
Hypothesis open_seal : forall (m : bytes) (n : nonce24) (k : key),
  secretbox_open nacl (secretbox_seal nacl m n k) n k = Some m.

(** C1: for every plaintext [p], the empty one included, and every
    two key pairs [(A_priv, A_pub)] and [(B_priv, B_pub)], a frame
    that [Encrypt] makes of [p] under the shared key of
    [(A_priv, B_pub)] is decrypted by [Decrypt] under the shared key
    of [(B_priv, A_pub)] to exactly [p]; the two shared keys are
    equal. *)
Theorem Encrypt_Decrypt_roundtrip
    (p : bytes) (A_priv B_priv : key) (w w1 w2 : world S) (em : bytes) :
  let A_pub := scalar_base nacl A_priv in
  let B_pub := scalar_base nacl B_priv in
  let sender := Part000.NewBoxKeys (Some A_pub) (Some B_pub) (Some A_priv) in
  let receiver := Part000.NewBoxKeys (Some B_pub) (Some A_pub) (Some B_priv) in
  Part000.Encrypt io nacl sender p w = (Ok (em, None), w1) ->
  MainGo.generateSharedKey nacl A_priv B_pub
    = MainGo.generateSharedKey nacl B_priv A_pub /\
  In (EvSeal p (firstn 24 em) (MainGo.generateSharedKey nacl A_priv B_pub))
     (trace w1) /\
  Part000.Decrypt nacl receiver em w2 =
    (Ok (p, None),
     World (st w2)
       (trace w2 ++ [EvOpen (skipn 24 em) (firstn 24 em)
                       (MainGo.generateSharedKey nacl B_priv A_pub)])).
Proof.
  intros A_pub B_pub sender receiver Henc.
  unfold MainGo.generateSharedKey.
  assert (Hkey : precompute nacl B_pub A_priv = precompute nacl A_pub B_priv)
    by apply dh_agree.
  destruct (Encrypt_ok_inv _ _ _ _ _ Henc)
    as (got & s1 & peers & priv & Hr & Hp & Hk).
  simpl in Hp, Hk. injection Hp as <-. injection Hk as <-.
  pose proof (@Encrypt_run S io nacl sender p w got s1 B_pub A_priv
                Hr eq_refl eq_refl) as Hrun.
  cbv zeta in Hrun.
  set (nonce := fst (go_copy (zeros 24) got)) in *.
  assert (Hem : nonce ++ secretbox_seal nacl p nonce (precompute nacl B_pub A_priv)
                = em) by congruence.
  assert (Hw1 : World s1 (trace w ++ [EvRand 24 got None;
                  EvSeal p nonce (precompute nacl B_pub A_priv)]) = w1)
    by congruence.
  assert (Hn : length nonce = 24)
    by (unfold nonce; now rewrite go_copy_length, zeros_length).
  assert (Hfirst : firstn 24 em = nonce).
  { rewrite <- Hem, <- Hn, firstn_app, firstn_all, Nat.sub_diag.
    rewrite firstn_0. apply app_nil_r. }
  assert (Hskip : skipn 24 em
                  = secretbox_seal nacl p nonce (precompute nacl B_pub A_priv)).
  { rewrite <- Hem, <- Hn, skipn_app, skipn_all, Nat.sub_diag.
    reflexivity. }
  split; [exact Hkey|]. split.
  - rewrite <- Hw1, Hfirst. simpl. apply in_or_app. right. right. now left.
  - rewrite (@Decrypt_run S nacl receiver em w2 A_pub B_priv);
      [| rewrite <- Hem, length_app; lia | reflexivity | reflexivity ].
    rewrite Hskip, Hfirst, <- Hkey, open_seal. reflexivity.
Qed.

End Codec.

(** The round trip on the five bytes of "hello" over the scripted
    connection. *)
Lemma roundtrip_hello :
  MainGo.generateSharedKey toy a_priv b_pub
    = MainGo.generateSharedKey toy b_priv a_pub /\
  fst (Part000.Encrypt sim_io toy boxA hello (start (quiet [Data draw1])))
    = Ok (frame_of hello draw1, None) /\
  fst (Part000.Decrypt toy boxB (frame_of hello draw1) (start (quiet [])))
    = Ok (hello, None).
Proof.
  set (r := Part000.Encrypt sim_io toy boxA hello (start (quiet [Data draw1]))).
  assert (Hrun : r = (Ok (frame_of hello draw1, None), snd r))
    by (vm_compute; reflexivity).
  destruct (@Encrypt_Decrypt_roundtrip sim sim_io toy toy_dh_agree toy_open_seal
              hello a_priv b_priv _ _ (start (quiet [])) _ Hrun)
    as (Hkey & _ & Hdec).
  split; [exact Hkey|]. split; [now rewrite Hrun|].
  exact (f_equal fst Hdec).
Defined.

(** ** The writers *)

Section Writers.
Context {S : Type} (io : IO S) (nacl : NaCl).

(** [SecureWriter.Write] when the random source gives its bytes: one
    seal, one underlying write of the frame. *)
Lemma SecureWriter_Write_run (sw : MainGo.SecureWriter) (p : bytes)
      (w : world S) (got : bytes) (s1 s2 : S) (k : nat) (e : option error) :
  let nonce := fst (go_copy (zeros 24) got) in
  let frame := nonce ++ secretbox_seal nacl p nonce (MainGo.w_key sw) in
  io_rand io (st w) 24 = (got, None, s1) ->
  io_write io s1 frame = (k, e, s2) ->
  MainGo.SecureWriter_Write io nacl sw p w =
    (Ok match e with
        | Some err => (Z.of_nat k, Some err)
        | None => (Z.of_nat (length frame), None)
        end,
     World s2 (trace w ++ [EvRand 24 got None;
                           EvSeal p nonce (MainGo.w_key sw);
                           EvWrite frame k e])).
Proof.
  intros nonce frame Hr Hw.
  unfold MainGo.SecureWriter_Write, rand_Read, bind.
  rewrite zeros_length, Hr.
  subst frame nonce. destruct (go_copy (zeros 24) got) as [nonce n].
  unfold box_SealAfterPrecomputation, conn_Write, bind, emit, ret. simpl.
  simpl in Hw. rewrite Hw, trace_snoc3.
  now destruct e.
Qed.

(** [Writer.Write] when [Encrypt] has its nonce and keys. *)
Lemma Writer_Write_run (wr : Part000.Writer) (p : bytes)
      (w : world S) (got : bytes) (s1 s2 : S) (k : nat) (e : option error)
      (peers priv : key) :
  let nonce := fst (go_copy (zeros 24) got) in
  let key := precompute nacl peers priv in
  let frame := nonce ++ secretbox_seal nacl p nonce key in
  io_rand io (st w) 24 = (got, None, s1) ->
  Part000.PeersPublicKey (Part000.w_bx wr) = Some peers ->
  Part000.privateKey (Part000.w_bx wr) = Some priv ->
  io_write io s1 frame = (k, e, s2) ->
  Part000.Writer_Write io nacl wr p w =
    (Ok (k, e),
     World s2 (trace w ++ [EvRand 24 got None; EvSeal p nonce key;
                           EvWrite frame k e])).
Proof.
  intros nonce key frame Hr Hp Hk Hw.
  unfold Part000.Writer_Write, bind.
  rewrite (Encrypt_run io nacl _ p w Hr Hp Hk).
  fold nonce key frame.
  unfold conn_Write, ret. simpl. rewrite Hw, <- app_assoc. simpl.
  now destruct e.
Qed.

Hypothesis seal_length : forall (m : bytes) (n : nonce24) (k : key),
  length (secretbox_seal nacl m n k) = length m + Overhead.

(** The underlying writer keeps the contract of [io.Writer]: no
    error means the whole slice was written. *)
Hypothesis write_full : forall (s : S) (d : bytes) (n : nat) (s' : S),
  io_write io s d = (n, None, s') -> n = length d.

Lemma frame_length (p got : bytes) (k : key) :
  let nonce := fst (go_copy (zeros 24) got) in
  length (nonce ++ secretbox_seal nacl p nonce k) = 24 + length p + Overhead.
Proof.
  intros nonce. rewrite length_app, seal_length.
  unfold nonce. rewrite go_copy_length, zeros_length. lia.
Qed.

(** C2, as the code has it: whenever [Write(p)] of either secure
    writer succeeds, the count it returns is the length of the frame
    on the wire, [24 + len(p) + 16], not [len(p)]. *)
Theorem Write_returns_frame_length (p : bytes) :
  (forall (sw : MainGo.SecureWriter) (w w' : world S) (n : Z),
      MainGo.SecureWriter_Write io nacl sw p w = (Ok (n, None), w') ->
      n = Z.of_nat (24 + length p + Overhead)) /\
  (forall (wr : Part000.Writer) (w w' : world S) (n : nat),
      Part000.Writer_Write io nacl wr p w = (Ok (n, None), w') ->
      n = 24 + length p + Overhead).
Proof.
  split.
  - intros sw w w' n Hrun.
    destruct (io_rand io (st w) 24) as [[got e] s1] eqn:Hr.
    destruct e as [e|].
    + unfold MainGo.SecureWriter_Write, rand_Read, bind in Hrun.
      rewrite zeros_length, Hr in Hrun.
      destruct (go_copy (zeros 24) got); discriminate.
    + destruct (io_write io s1
                  (fst (go_copy (zeros 24) got)
                   ++ secretbox_seal nacl p (fst (go_copy (zeros 24) got))
                        (MainGo.w_key sw))) as [[k e] s2] eqn:Hw.
      rewrite (SecureWriter_Write_run sw p w Hr Hw) in Hrun.
      destruct e as [e|]; [discriminate|].
      rewrite frame_length in Hrun. congruence.
  - intros wr w w' n Hrun.
    assert (Henc : exists em w1,
              Part000.Encrypt io nacl (Part000.w_bx wr) p w = (Ok (em, None), w1)).
    { unfold Part000.Writer_Write, bind in Hrun.
      destruct (Part000.Encrypt io nacl (Part000.w_bx wr) p w)
        as [[[em [e|]]|msg] w1]; try discriminate.
      now exists em, w1. }
    destruct Henc as (em & w1 & Henc).
    destruct (Encrypt_ok_inv _ _ _ _ _ Henc)
      as (got & s1 & peers & priv & Hr & Hp & Hk).
    destruct (io_write io s1
                (fst (go_copy (zeros 24) got)
                 ++ secretbox_seal nacl p (fst (go_copy (zeros 24) got))
                      (precompute nacl peers priv))) as [[k e] s2] eqn:Hw.
    rewrite (Writer_Write_run wr p w Hr Hp Hk Hw) in Hrun.
    assert (e = None) by congruence. subst e.
    apply write_full in Hw. rewrite frame_length in Hw. congruence.
Qed.
End Writers.

(** Writing the five bytes of "hello" succeeds and both writers return
    45, the length of the frame, where the specification says 5. *)
Lemma Write_hello_returns_45 :
  fst (MainGo.SecureWriter_Write sim_io toy
         (MainGo.NewSecureWriter toy a_priv b_pub) hello
         (start (quiet [Data draw1]))) = Ok (45%Z, None) /\
  fst (Part000.Writer_Write sim_io toy (Part000.NewWriter boxA) hello
         (start (quiet [Data draw1]))) = Ok (45, None) /\
  45%Z <> Z.of_nat (length hello) /\ 45 <> length hello.
Proof.
  split; [vm_compute; reflexivity|].
  split; [vm_compute; reflexivity|].
  split; simpl; [discriminate|lia].
Qed.

(** The count that the two writers return for "hello" is the frame
    length. *)
Lemma Write_hello_frame_length :
  fst (MainGo.SecureWriter_Write sim_io toy
         (MainGo.NewSecureWriter toy a_priv b_pub) hello
         (start (quiet [Data draw1])))
    = Ok (Z.of_nat (24 + length hello + Overhead), None) /\
  fst (Part000.Writer_Write sim_io toy (Part000.NewWriter boxA) hello
         (start (quiet [Data draw1])))
    = Ok (24 + length hello + Overhead, None).
Proof.
  destruct (@Write_returns_frame_length sim sim_io toy toy_seal_length
              sim_write_full hello) as [Hmain Hpart].
  set (r1 := MainGo.SecureWriter_Write sim_io toy
               (MainGo.NewSecureWriter toy a_priv b_pub) hello
               (start (quiet [Data draw1]))).
  set (r2 := Part000.Writer_Write sim_io toy (Part000.NewWriter boxA) hello
               (start (quiet [Data draw1]))).
  assert (H1 : r1 = (Ok (45%Z, None), snd r1)) by (vm_compute; reflexivity).
  assert (H2 : r2 = (Ok (45, None), snd r2)) by (vm_compute; reflexivity).
  split.
  - rewrite H1. simpl fst. now rewrite <- (Hmain _ _ _ _ H1).
  - rewrite H2. simpl fst. now rewrite <- (Hpart _ _ _ _ H2).
Defined.

(** ** The readers *)

Section Readers.
Context {S : Type} (io : IO S) (nacl : NaCl).

(** [Reader.Read] after a successful underlying read of at least 24
    bytes: the first [n] bytes of the buffer are the frame. *)
Lemma Reader_Read_run (r : Part000.Reader) (p : bytes) (w : world S)
      (n : nat) (p1 : bytes) (s1 : S) (peers priv : key) :
  io_read io (st w) p = (n, None, p1, s1) ->
  n <= length p1 -> 24 <= n ->
  Part000.PeersPublicKey (Part000.r_bx r) = Some peers ->
  Part000.privateKey (Part000.r_bx r) = Some priv ->
  let em := firstn n p1 in
  let k := precompute nacl peers priv in
  Part000.Reader_Read io nacl r p w =
    (Ok match secretbox_open nacl (skipn 24 em) (firstn 24 em) k with
        | Some dm => (fst (go_copy p1 dm), snd (go_copy p1 dm), None)
        | None => (p1, n, Some Part000.errDecrypt)
        end,
     World s1 (trace w ++ [EvRead (length p) n None p1;
                           EvOpen (skipn 24 em) (firstn 24 em) k])).
Proof.
  intros Hrd Hn H24 Hp Hk em k.
  unfold Part000.Reader_Read, conn_Read, slice_to, bind.
  rewrite Hrd.
  destruct (Nat.leb_spec n (length p1)) as [_|Hlt]; [|lia].
  unfold ret at 1. fold em.
  rewrite (@Decrypt_run S nacl (Part000.r_bx r) em _ peers priv);
    [| unfold em; rewrite length_firstn; lia | exact Hp | exact Hk ].
  fold k. simpl. rewrite <- app_assoc. simpl.
  destruct (secretbox_open nacl (skipn 24 em) (firstn 24 em) k) as [dm|].
  - now destruct (go_copy p1 dm).
  - reflexivity.
Qed.

(** [SecureReader.Read] after a successful underlying read: the
    whole buffer is trimmed, then split. *)
Lemma SecureReader_Read_run (r : MainGo.SecureReader) (p : bytes)
      (w : world S) (n : nat) (p1 : bytes) (s1 : S) :
  io_read io (st w) p = (n, None, p1, s1) ->
  24 <= length (Trim p1) ->
  let em := Trim p1 in
  let k := MainGo.r_key r in
  MainGo.SecureReader_Read io nacl r p w =
    (Ok match secretbox_open nacl (skipn 24 em) (firstn 24 em) k with
        | Some dm =>
            (fst (go_copy p1 dm), Z.of_nat (snd (go_copy p1 dm)), None)
        | None => (p1, (-1)%Z, Some MainGo.errInvalidKeyPair)
        end,
     World s1 (trace w ++ [EvRead (length p) n None p1;
                           EvOpen (skipn 24 em) (firstn 24 em) k])).
Proof.
  intros Hrd H24 em k.
  unfold MainGo.SecureReader_Read, conn_Read, slice_from, bind.
  rewrite Hrd. fold em.
  rewrite nonce_of_frame by exact H24.
  destruct (Nat.leb_spec 24 (length em)) as [_|Hlt]; [|unfold em in Hlt; lia].
  unfold box_OpenAfterPrecomputation, bind, emit, ret. simpl.
  rewrite <- app_assoc. simpl. fold k.
  destruct (secretbox_open nacl (skipn 24 em) (firstn 24 em) k) as [dm|].
  - now destruct (go_copy p1 dm).
  - reflexivity.
Qed.

(** When fewer than 24 bytes are left after trimming, the slice
    expression panics and nothing reaches the primitive. *)
Lemma SecureReader_Read_panics (r : MainGo.SecureReader) (p : bytes)
      (w : world S) (n : nat) (p1 : bytes) (s1 : S) :
  io_read io (st w) p = (n, None, p1, s1) ->
  length (Trim p1) < 24 ->
  MainGo.SecureReader_Read io nacl r p w =
    (Panic "slice bounds out of range",
     World s1 (trace w ++ [EvRead (length p) n None p1])).
Proof.
  intros Hrd Hlt.
  unfold MainGo.SecureReader_Read, conn_Read, slice_from, bind.
  rewrite Hrd.
  destruct (Nat.leb_spec 24 (length (Trim p1))) as [Hle|_]; [lia|].
  reflexivity.
Qed.

(** C7: whenever the underlying read returns an error, end of stream
    included, [Read] of either secure reader returns that same error
    with the count of the underlying read, and the only call it made
    is that read: nothing is decoded. *)
Theorem Read_propagates_io_error
    (p : bytes) (w : world S) (n : nat) (e : error) (p1 : bytes) (s1 : S) :
  io_read io (st w) p = (n, Some e, p1, s1) ->
  (forall r : Part000.Reader,
      Part000.Reader_Read io nacl r p w =
        (Ok (p1, n, Some e),
         World s1 (trace w ++ [EvRead (length p) n (Some e) p1]))) /\
  (forall r : MainGo.SecureReader,
      MainGo.SecureReader_Read io nacl r p w =
        (Ok (p1, Z.of_nat n, Some e),
         World s1 (trace w ++ [EvRead (length p) n (Some e) p1]))).
Proof.
  intros Hrd. split; intros r.
  - unfold Part000.Reader_Read, conn_Read, bind. now rewrite Hrd.
  - unfold MainGo.SecureReader_Read, conn_Read, bind. now rewrite Hrd.
Qed.

End Readers.

(** End of stream on the first read: both readers return [EOF] and the
    trace holds the read alone. *)
Lemma Read_at_end_of_stream :
  Part000.Reader_Read sim_io toy (Part000.NewReader boxB) (zeros 64)
      (start (incoming [] []))
    = (Ok (zeros 64, 0, Some EOF),
       World (incoming [] []) [EvRead 64 0 (Some EOF) (zeros 64)]) /\
  MainGo.SecureReader_Read sim_io toy (MainGo.NewSecureReader toy b_priv a_pub)
      (zeros 64) (start (incoming [] []))
    = (Ok (zeros 64, 0%Z, Some EOF),
       World (incoming [] []) [EvRead 64 0 (Some EOF) (zeros 64)]).
Proof.
  assert (Hrd : io_read sim_io (st (start (incoming [] []))) (zeros 64)
                = (0, Some EOF, zeros 64, incoming [] [])) by reflexivity.
  destruct (Read_propagates_io_error sim_io toy _ _ Hrd) as [Hpart Hmain].
  split.
  - exact (Hpart (Part000.NewReader boxB)).
  - exact (Hmain (MainGo.NewSecureReader toy b_priv a_pub)).
Defined.



(** ** Frames below the minimum length *)

Section ShortFrames.
Context {S : Type} (io : IO S) (nacl : NaCl).

(** [secretbox.Open] returns false at once on a box shorter than
    the tag. *)
Hypothesis open_short : forall (c : bytes) (n : nonce24) (k : key),
  length c < Overhead -> secretbox_open nacl c n k = None.

(** C3, as the code has it: neither decoder checks the length of
    the frame.  In the second file, on every byte sequence of at least
    24 and fewer than 40 bytes, [Decrypt], and [Reader.Read] when the
    underlying read returns that many bytes, hand the box to the
    primitive, which rejects it, and return the decryption error and
    no plaintext.  In main.go [SecureReader.Read] decodes the whole
    buffer with its zero bytes trimmed off both ends, not the frame:
    when at least 24 and fewer than 40 bytes are left after trimming,
    the box is handed to the primitive, which rejects it, and [Read]
    returns -1 and its decryption error. *)
Theorem short_frame_rejected_by_primitive :
  (forall (b : Part000.Box) (em : bytes) (w : world S) (peers priv : key),
      24 <= length em -> length em < 24 + Overhead ->
      Part000.PeersPublicKey b = Some peers ->
      Part000.privateKey b = Some priv ->
      Part000.Decrypt nacl b em w =
        (Ok ([], Some Part000.errDecrypt),
         World (st w)
           (trace w ++ [EvOpen (skipn 24 em) (firstn 24 em)
                          (precompute nacl peers priv)]))) /\
  (forall (r : Part000.Reader) (p : bytes) (w : world S)
          (n : nat) (p1 : bytes) (s1 : S) (peers priv : key),
      io_read io (st w) p = (n, None, p1, s1) ->
      n <= length p1 ->
      24 <= n -> n < 24 + Overhead ->
      Part000.PeersPublicKey (Part000.r_bx r) = Some peers ->
      Part000.privateKey (Part000.r_bx r) = Some priv ->
      Part000.Reader_Read io nacl r p w =
        (Ok (p1, n, Some Part000.errDecrypt),
         World s1
           (trace w ++ [EvRead (length p) n None p1;
                        EvOpen (skipn 24 (firstn n p1)) (firstn 24 (firstn n p1))
                          (precompute nacl peers priv)]))) /\
  (forall (r : MainGo.SecureReader) (p : bytes) (w : world S)
          (n : nat) (p1 : bytes) (s1 : S),
      io_read io (st w) p = (n, None, p1, s1) ->
      24 <= length (Trim p1) -> length (Trim p1) < 24 + Overhead ->
      MainGo.SecureReader_Read io nacl r p w =
        (Ok (p1, (-1)%Z, Some MainGo.errInvalidKeyPair),
         World s1
           (trace w ++ [EvRead (length p) n None p1;
                        EvOpen (skipn 24 (Trim p1)) (firstn 24 (Trim p1))
                          (MainGo.r_key r)]))).
Proof.
  split; [|split].
  - intros b em w peers priv H24 H40 Hp Hk.
    rewrite (@Decrypt_run S nacl b em w peers priv H24 Hp Hk).
    rewrite open_short; [reflexivity|].
    rewrite length_skipn. lia.
  - intros r p w n p1 s1 peers priv Hrd Hn H24 H40 Hp Hk.
    rewrite (Reader_Read_run io nacl r p w Hrd Hn H24 Hp Hk).
    rewrite open_short; [reflexivity|].
    rewrite length_skipn, length_firstn. lia.
  - intros r p w n p1 s1 Hrd H24 H40.
    rewrite (SecureReader_Read_run io nacl r p w Hrd H24).
    rewrite open_short; [reflexivity|].
    rewrite length_skipn. lia.
Qed.
End ShortFrames.

(** Ten bytes make [Decrypt] and [SecureReader.Read] panic, and on
    thirty bytes [Decrypt] calls the primitive; the specification
    says an error is returned without a crash and without a call of
    the primitive.  For [SecureReader.Read] of main.go the length of
    the frame does not decide: a frame of thirty bytes that ends in
    ten zero bytes panics, and the first thirty bytes of an authentic
    frame, read into a buffer that still holds that frame, give its
    plaintext. *)
Lemma short_frames_panic_or_reach_primitive :
  Part000.Decrypt toy boxB (repeat x41 10) (start (quiet []))
    = (Panic "slice bounds out of range", start (quiet [])) /\
  fst (MainGo.SecureReader_Read sim_io toy
         (MainGo.NewSecureReader toy b_priv a_pub) (zeros 64)
         (start (incoming [Data (repeat x41 10)] [])))
    = Panic "slice bounds out of range" /\
  trace (snd (Part000.Decrypt toy boxB (repeat x41 30) (start (quiet []))))
    = [EvOpen (repeat x41 6) (repeat x41 24) (toy_precompute a_pub b_priv)] /\
  fst (MainGo.SecureReader_Read sim_io toy
         (MainGo.NewSecureReader toy b_priv a_pub) (zeros 64)
         (start (incoming [Data (repeat x41 20 ++ zeros 10)] [])))
    = Panic "slice bounds out of range" /\
  fst (MainGo.SecureReader_Read sim_io toy
         (MainGo.NewSecureReader toy b_priv a_pub)
         (frame_of hello draw1 ++ zeros 19)
         (start (incoming [Data (firstn 30 (frame_of hello draw1))] [])))
    = Ok (hello ++ skipn 5 (frame_of hello draw1 ++ zeros 19), 5%Z, None).
Proof.
  split; [vm_compute; reflexivity|].
  split; [vm_compute; reflexivity|].
  split; [vm_compute; reflexivity|].
  split; vm_compute; reflexivity.
Qed.

(** Thirty bytes: the primitive is called and rejects them, in
    [Decrypt], in [Reader.Read], and in [SecureReader.Read] when the
    thirty bytes are what trimming leaves of the buffer. *)
Lemma thirty_bytes_rejected :
  Part000.Decrypt toy boxB (repeat x41 30) (start (quiet []))
    = (Ok ([], Some Part000.errDecrypt),
       World (quiet [])
         [EvOpen (repeat x41 6) (repeat x41 24) (toy_precompute a_pub b_priv)]) /\
  fst (Part000.Reader_Read sim_io toy (Part000.NewReader boxB) (zeros 64)
         (start (incoming [Data (repeat x41 20 ++ zeros 10)] [])))
    = Ok (repeat x41 20 ++ zeros 44, 30, Some Part000.errDecrypt) /\
  fst (MainGo.SecureReader_Read sim_io toy
         (MainGo.NewSecureReader toy b_priv a_pub) (zeros 64)
         (start (incoming [Data (repeat x41 30)] [])))
    = Ok (repeat x41 30 ++ zeros 34, (-1)%Z, Some MainGo.errInvalidKeyPair).
Proof.
  destruct (@short_frame_rejected_by_primitive sim sim_io toy toy_open_short)
    as (Hdec & Hpart & Hmain).
  split; [|split].
  - apply (Hdec boxB (repeat x41 30) (start (quiet [])) a_pub b_priv).
    + vm_compute; lia.
    + vm_compute; lia.
    + reflexivity.
    + reflexivity.
  - set (w := start (incoming [Data (repeat x41 20 ++ zeros 10)] [])).
    assert (Hrd : io_read sim_io (st w) (zeros 64)
                  = (30, None, repeat x41 20 ++ zeros 44,
                     snd (io_read sim_io (st w) (zeros 64))))
      by (vm_compute; reflexivity).
    rewrite (Hpart (Part000.NewReader boxB) _ _ _ _ _ a_pub b_priv Hrd).
    + reflexivity.
    + vm_compute; lia.
    + lia.
    + vm_compute; lia.
    + reflexivity.
    + reflexivity.
  - set (w := start (incoming [Data (repeat x41 30)] [])).
    assert (Hrd : io_read sim_io (st w) (zeros 64)
                  = (30, None, repeat x41 30 ++ zeros 34,
                     snd (io_read sim_io (st w) (zeros 64))))
      by (vm_compute; reflexivity).
    rewrite (Hmain (MainGo.NewSecureReader toy b_priv a_pub) _ _ _ _ _ Hrd).
    + reflexivity.
    + vm_compute; lia.
    + vm_compute; lia.
Defined.

(** ** Trimming in main.go *)

Section Trimming.
Context {S : Type} (io : IO S) (nacl : NaCl).

(** C9: after a successful underlying read of [n] bytes,
    [SecureReader.Read] trims the zero bytes off both ends of the
    whole buffer and splits the result into nonce and box.  When the
    frame received, the first [n] bytes of the buffer, begins or
    ends with a zero byte, the bytes handed to the primitive are not
    the frame (and when fewer than 24 bytes are left the call panics
    before the primitive). *)
Theorem SecureReader_Read_trims_buffer
    (r : MainGo.SecureReader) (p : bytes) (w : world S)
    (n : nat) (p1 : bytes) (s1 : S) :
  io_read io (st w) p = (n, None, p1, s1) ->
  let frame := firstn n p1 in
  frame <> [] ->
  hd x01 frame = x00 \/ last frame x01 = x00 ->
  let run := MainGo.SecureReader_Read io nacl r p w in
  (length (Trim p1) < 24 /\
   fst run = Panic "slice bounds out of range" /\
   trace (snd run) = trace w ++ [EvRead (length p) n None p1]) \/
  (exists box nonce : bytes,
      trace (snd run) = trace w ++ [EvRead (length p) n None p1;
                                    EvOpen box nonce (MainGo.r_key r)] /\
      nonce ++ box = Trim p1 /\
      nonce ++ box <> frame).
Proof.
  intros Hrd frame Hne Hzero run.
  destruct (Nat.lt_ge_cases (length (Trim p1)) 24) as [Hlt|Hge].
  - left. unfold run.
    rewrite (SecureReader_Read_panics io nacl r p w Hrd Hlt).
    now repeat split.
  - right. exists (skipn 24 (Trim p1)), (firstn 24 (Trim p1)).
    unfold run. rewrite (SecureReader_Read_run io nacl r p w Hrd Hge).
    rewrite firstn_skipn.
    repeat split. now apply Trim_differs.
Qed.
End Trimming.

(** An authentic frame whose nonce begins with a zero byte, read into
    a zeroed buffer of 64 bytes: the zero is trimmed away, the
    primitive gets the frame shifted by one byte, and the read fails. *)
Lemma zero_led_frame_is_shifted :
  let frame := frame_of hello draw0 in
  let run := MainGo.SecureReader_Read sim_io toy
               (MainGo.NewSecureReader toy b_priv a_pub) (zeros 64)
               (start (incoming [Data frame] [])) in
  fst run = Ok (frame ++ zeros 19, (-1)%Z, Some MainGo.errInvalidKeyPair) /\
  exists box nonce : bytes,
    trace (snd run) = [EvRead 64 45 None (frame ++ zeros 19);
                       EvOpen box nonce (toy_precompute a_pub b_priv)] /\
    nonce ++ box = skipn 1 frame /\
    nonce ++ box <> frame.
Proof.
  intros frame run.
  split; [vm_compute; reflexivity|].
  set (w := start (incoming [Data frame] [])).
  assert (Hrd : io_read sim_io (st w) (zeros 64)
                = (45, None, frame ++ zeros 19,
                   snd (io_read sim_io (st w) (zeros 64))))
    by (vm_compute; reflexivity).
  destruct (@SecureReader_Read_trims_buffer sim sim_io toy
              (MainGo.NewSecureReader toy b_priv a_pub) _ _ _ _ _ Hrd)
    as [(Hlt & _) | (box & nonce & Htr & Htrim & Hdiff)].
  - vm_compute; discriminate.
  - left; vm_compute; reflexivity.
  - vm_compute in Hlt. lia.
  - exists box, nonce. split; [exact Htr|]. split; [|exact Hdiff].
    rewrite Htrim. vm_compute; reflexivity.
Defined.

(** ** Nonces *)

Section Nonces.
Context {S : Type} (io : IO S) (nacl : NaCl).

Lemma drawn_eq (w : world S) (got : bytes) (e : option error) (s1 : S) :
  io_rand io (st w) 24 = (got, e, s1) -> drawn io w = got.
Proof. unfold drawn. now intros ->. Qed.

Lemma Encrypt_nonce (b : Part000.Box) (m em : bytes) (w w1 : world S) :
  Part000.Encrypt io nacl b m w = (Ok (em, None), w1) ->
  length (drawn io w) = 24 ->
  firstn 24 em = drawn io w /\
  exists k : key,
    w1 = World (st w1) (trace w ++ [EvRand 24 (drawn io w) None;
                                    EvSeal m (drawn io w) k]).
Proof.
  intros Henc Hlen.
  destruct (Encrypt_ok_inv _ _ _ _ _ Henc)
    as (got & s1 & peers & priv & Hr & Hp & Hk).
  pose proof (Encrypt_run io nacl b m w Hr Hp Hk) as Hrun.
  cbv zeta in Hrun.
  rewrite (drawn_eq _ Hr) in *.
  rewrite go_copy_exact in Hrun by (now rewrite zeros_length).
  assert (Hem : got ++ secretbox_seal nacl m got (precompute nacl peers priv) = em)
    by congruence.
  assert (Hw1 : World s1 (trace w ++ [EvRand 24 got None;
                  EvSeal m got (precompute nacl peers priv)]) = w1)
    by congruence.
  split.
  - rewrite <- Hem, <- Hlen, firstn_app, firstn_all, Nat.sub_diag.
    rewrite firstn_0. apply app_nil_r.
  - exists (precompute nacl peers priv). now rewrite <- Hw1.
Qed.

(** C8: every successful [Encrypt] and every successful
    [SecureWriter.Write] asks the random source for 24 bytes once
    and puts the bytes it gave first in the frame; two successive
    [Encrypt] calls of one box whose draws differ give frames whose
    first 24 bytes differ. *)
Theorem nonce_is_the_fresh_draw :
  (forall (b : Part000.Box) (m em : bytes) (w w1 : world S),
      Part000.Encrypt io nacl b m w = (Ok (em, None), w1) ->
      length (drawn io w) = 24 ->
      firstn 24 em = drawn io w /\
      exists k : key,
        trace w1 = trace w ++ [EvRand 24 (drawn io w) None;
                               EvSeal m (drawn io w) k]) /\
  (forall (sw : MainGo.SecureWriter) (p : bytes) (n : Z) (w w1 : world S),
      MainGo.SecureWriter_Write io nacl sw p w = (Ok (n, None), w1) ->
      length (drawn io w) = 24 ->
      exists (frame : bytes) (k : nat),
        trace w1 = trace w ++ [EvRand 24 (drawn io w) None;
                               EvSeal p (drawn io w) (MainGo.w_key sw);
                               EvWrite frame k None] /\
        firstn 24 frame = drawn io w) /\
  (forall (b : Part000.Box) (m1 m2 em1 em2 : bytes) (w w1 w2 : world S),
      Part000.Encrypt io nacl b m1 w = (Ok (em1, None), w1) ->
      Part000.Encrypt io nacl b m2 w1 = (Ok (em2, None), w2) ->
      length (drawn io w) = 24 -> length (drawn io w1) = 24 ->
      drawn io w <> drawn io w1 ->
      firstn 24 em1 <> firstn 24 em2).
Proof.
  split; [|split].
  - intros b m em w w1 Henc Hlen.
    destruct (@Encrypt_nonce _ _ _ _ _ Henc Hlen) as [Hn [k Hw1]].
    split; [exact Hn|]. exists k. now rewrite Hw1.
  - intros sw p n w w1 Hrun Hlen.
    destruct (io_rand io (st w) 24) as [[got e] s1] eqn:Hr.
    rewrite (drawn_eq _ Hr) in *.
    destruct e as [e|].
    + unfold MainGo.SecureWriter_Write, rand_Read, bind in Hrun.
      rewrite zeros_length, Hr in Hrun.
      destruct (go_copy (zeros 24) got); discriminate.
    + destruct (io_write io s1
                  (fst (go_copy (zeros 24) got)
                   ++ secretbox_seal nacl p (fst (go_copy (zeros 24) got))
                        (MainGo.w_key sw))) as [[k e] s2] eqn:Hw.
      pose proof (SecureWriter_Write_run io nacl sw p w Hr Hw) as Hrun'.
      cbv zeta in Hrun'.
      rewrite go_copy_exact in Hrun' by (now rewrite zeros_length).
      destruct e as [e|]; [congruence|].
      exists (got ++ secretbox_seal nacl p got (MainGo.w_key sw)), k.
      split.
      * assert (Hw1 : World s2 (trace w ++ [EvRand 24 got None;
                        EvSeal p got (MainGo.w_key sw);
                        EvWrite (got ++ secretbox_seal nacl p got (MainGo.w_key sw))
                          k None]) = w1) by congruence.
        now rewrite <- Hw1.
      * rewrite <- Hlen, firstn_app, firstn_all, Nat.sub_diag.
        rewrite firstn_0. apply app_nil_r.
  - intros b m1 m2 em1 em2 w w1 w2 H1 H2 Hl1 Hl2 Hdiff.
    destruct (@Encrypt_nonce _ _ _ _ _ H1 Hl1) as [-> _].
    destruct (@Encrypt_nonce _ _ _ _ _ H2 Hl2) as [-> _].
    exact Hdiff.
Qed.
End Nonces.

(** Two successive [Encrypt] calls of "hello" with the draws [draw1]
    and [draw2], and one [SecureWriter.Write] with [draw1]. *)
Lemma two_frames_two_nonces :
  let w := start (quiet [Data draw1; Data draw2]) in
  let run1 := Part000.Encrypt sim_io toy boxA hello w in
  let run2 := Part000.Encrypt sim_io toy boxA hello (snd run1) in
  fst run1 = Ok (frame_of hello draw1, None) /\
  fst run2 = Ok (frame_of hello draw2, None) /\
  firstn 24 (frame_of hello draw1) = draw1 /\
  firstn 24 (frame_of hello draw2) = draw2 /\
  firstn 24 (frame_of hello draw1) <> firstn 24 (frame_of hello draw2) /\
  exists (frame : bytes) (k : nat),
    trace (snd (MainGo.SecureWriter_Write sim_io toy
                  (MainGo.NewSecureWriter toy a_priv b_pub) hello w))
      = [EvRand 24 draw1 None;
         EvSeal hello draw1 (toy_precompute b_pub a_priv);
         EvWrite frame k None] /\
    firstn 24 frame = draw1.
Proof.
  intros w run1 run2.
  destruct (@nonce_is_the_fresh_draw sim sim_io toy) as (Henc & Hwr & Hsucc).
  assert (H1 : run1 = (Ok (frame_of hello draw1, None), snd run1))
    by (vm_compute; reflexivity).
  assert (H2 : run2 = (Ok (frame_of hello draw2, None), snd run2))
    by (vm_compute; reflexivity).
  assert (Hl1 : length (drawn sim_io w) = 24) by reflexivity.
  assert (Hl2 : length (drawn sim_io (snd run1)) = 24) by reflexivity.
  split; [now rewrite H1|]. split; [now rewrite H2|].
  split; [exact (proj1 (Henc _ _ _ _ _ H1 Hl1))|].
  split; [exact (proj1 (Henc _ _ _ _ _ H2 Hl2))|].
  split.
  - apply (Hsucc boxA hello hello _ _ w (snd run1) (snd run2) H1 H2 Hl1 Hl2).
    vm_compute. discriminate.
  - set (r := MainGo.SecureWriter_Write sim_io toy
                (MainGo.NewSecureWriter toy a_priv b_pub) hello w).
    assert (H3 : r = (Ok (45%Z, None), snd r)) by (vm_compute; reflexivity).
    exact (Hwr _ _ _ _ _ H3 Hl1).
Defined.

(** ** The key exchange *)

Section KeyExchange.
Context {S : Type} (io : IO S) (nacl : NaCl).

Opaque go_copy zeros.

Lemma NewBox_run (w : world S) (got : bytes) (e : option error) (s1 : S) :
  io_rand io (st w) 32 = (got, e, s1) ->
  let priv := fst (go_copy (zeros 32) got) in
  Part000.NewBox io nacl w =
    (Ok match e with
        | Some err => (Part000.NewBoxKeys None None None, Some err)
        | None =>
            (Part000.NewBoxKeys (Some (scalar_base nacl priv)) None (Some priv),
             None)
        end,
     World s1 (trace w ++ [EvRand 32 got e])).
Proof.
  intros Hr priv.
  unfold Part000.NewBox, box_GenerateKey, rand_Read, bind.
  rewrite zeros_length, Hr.
  subst priv. destruct (go_copy (zeros 32) got) as [priv n].
  now destruct e.
Qed.

Lemma reads_app (t u : list event) : reads (t ++ u) = reads t ++ reads u.
Proof. apply filter_app. Qed.

(** C5, as the code has it: in both roles the key exchange makes
    exactly one underlying read, into a zeroed buffer of 32 bytes,
    and the peer's key is a zeroed 32-byte array overwritten with the
    [n] bytes that this one read returned; no loop reads on when
    [n] is below 32. *)
Theorem key_exchange_reads_once :
  (forall (w w' : world S) (srv : Part000.Server),
      Part000.handle_exchange io nacl w = (Ok (Some srv), w') ->
      exists (n : nat) (key : bytes) (evs : list event),
        trace w' = trace w ++ evs /\
        reads evs = [EvRead 32 n None key] /\
        Part000.PeersPublicKey (Part000.r_bx (Part000.s_rd srv))
          = Some (fst (go_copy (zeros 32) (firstn n key)))) /\
  (forall (w w' : world S) (c : Part000.Client),
      Part000.Dial io nacl w = (Ok (Some c, None), w') ->
      exists (n : nat) (e : option error) (key : bytes) (evs : list event),
        trace w' = trace w ++ evs /\
        reads evs = [EvRead 32 n e key] /\
        Part000.PeersPublicKey (Part000.r_bx (Part000.c_rd c))
          = Some (fst (go_copy (zeros 32) (firstn n key)))).
Proof.
  split.
  - intros w w' srv Hrun.
    unfold Part000.handle_exchange, bind in Hrun.
    destruct (io_rand io (st w) 32) as [[got e] s1] eqn:Hr.
    rewrite (NewBox_run w Hr) in Hrun.
    destruct e as [e|]; [simpl in Hrun; discriminate|].
    simpl in Hrun.
    unfold conn_Write, conn_Read in Hrun. simpl in Hrun.
    destruct (io_write io s1 _) as [[k e] s2].
    destruct e as [e|]; [simpl in Hrun; discriminate|].
    simpl in Hrun.
    destruct (io_read io s2 (zeros 32)) as [[[n e] key] s3].
    destruct e as [e|]; [simpl in Hrun; discriminate|].
    simpl in Hrun. unfold slice_to, ret, panic in Hrun.
    destruct (Nat.leb n (length key)); [|discriminate].
    injection Hrun as Hsrv Hw'.
    exists n, key,
      [EvRand 32 got None;
       EvWrite (scalar_base nacl (fst (go_copy (zeros 32) got))) k None;
       EvRead 32 n None key].
    subst srv w'. simpl.
    rewrite zeros_length, <- !app_assoc. now repeat split.
  - intros w w' c Hrun.
    unfold Part000.Dial, net_Dial, bind in Hrun.
    destruct (io_dial io (st w)) as [d s0].
    destruct d as [d|]; [simpl in Hrun; discriminate|].
    simpl in Hrun.
    destruct (io_rand io s0 32) as [[got e] s1] eqn:Hr.
    rewrite (@NewBox_run (World s0 (trace w ++ [EvDial None])) got e s1 Hr)
      in Hrun.
    destruct e as [e|]; [simpl in Hrun; discriminate|].
    simpl in Hrun.
    unfold conn_Write, conn_Read in Hrun. simpl in Hrun.
    destruct (io_read io s1 (zeros 32)) as [[[n e] key] s2].
    unfold slice_to, ret, panic in Hrun.
    destruct (Nat.leb n (length key)); [|discriminate].
    simpl in Hrun.
    destruct (io_write io s2 _) as [[k e'] s3].
    destruct e' as [e'|]; [simpl in Hrun; discriminate|].
    injection Hrun as Hc Hw'.
    exists n, e, key,
      [EvDial None; EvRand 32 got None; EvRead 32 n e key;
       EvWrite (scalar_base nacl (fst (go_copy (zeros 32) got))) k None].
    subst c w'. simpl.
    rewrite zeros_length, <- !app_assoc. now repeat split.
Qed.

(** [Dial] on any connection: whatever error the read of the peer's
    key returns, a successful write afterwards yields an established
    client whose peer key is made of the [n] bytes of that read. *)
Lemma Dial_ignores_read_error
      (w : world S) (s0 s1 s2 s3 : S) (got key : bytes) (n k : nat)
      (e : option error) :
  let priv := fst (go_copy (zeros 32) got) in
  let pub := scalar_base nacl priv in
  let bx := Part000.NewBoxKeys (Some pub)
              (Some (fst (go_copy (zeros 32) (firstn n key)))) (Some priv) in
  io_dial io (st w) = (None, s0) ->
  io_rand io s0 32 = (got, None, s1) ->
  io_read io s1 (zeros 32) = (n, e, key, s2) ->
  n <= length key ->
  io_write io s2 pub = (k, None, s3) ->
  Part000.Dial io nacl w =
    (Ok (Some (Part000.NewClient (Part000.NewReader bx) (Part000.NewWriter bx)),
         None),
     World s3 (trace w ++ [EvDial None; EvRand 32 got None;
                           EvRead 32 n e key; EvWrite pub k None])).
Proof.
  intros priv pub bx Hd Hr Hrd Hn Hw.
  unfold Part000.Dial, net_Dial, bind. rewrite Hd.
  rewrite (@NewBox_run (World s0 (trace w ++ [EvDial None])) got None s1 Hr).
  fold priv pub.
  unfold conn_Read, conn_Write. cbn [st trace]. rewrite Hrd.
  unfold slice_to.
  destruct (Nat.leb_spec n (length key)) as [_|Hlt]; [|lia].
  unfold ret at 1.
  cbn [deref Part000.PublicKey Part000.set_PeersPublicKey Part000.NewBoxKeys ret
       st trace].
  rewrite Hw, zeros_length, <- !app_assoc. reflexivity.
Qed.

Transparent go_copy zeros.
End KeyExchange.

(** The peer's 32 key bytes arrive as 10 bytes and then 22: both roles
    read once, keep the 10 bytes over 22 zero bytes as the peer's key
    and go on to the established state; the 22 bytes stay unread.
    The specification has them loop until 32 bytes are there. *)
Lemma short_first_read_leaves_key_partial :
  let partial := Part000.NewBoxKeys (Some b_pub) (Some (key_part1 ++ zeros 22))
                   (Some b_priv) in
  let w := start (incoming [Data key_part1; Data key_part2] [Data b_priv]) in
  let served := Part000.handle_exchange sim_io toy w in
  let dialed := Part000.Dial sim_io toy w in
  fst served = Ok (Some (Part000.NewServer (Part000.NewReader partial)
                           (Part000.NewWriter partial))) /\
  reads (trace (snd served)) = [EvRead 32 10 None (key_part1 ++ zeros 22)] /\
  inbox (st (snd served)) = [Data key_part2] /\
  fst dialed = Ok (Some (Part000.NewClient (Part000.NewReader partial)
                           (Part000.NewWriter partial)), None) /\
  reads (trace (snd dialed)) = [EvRead 32 10 None (key_part1 ++ zeros 22)] /\
  inbox (st (snd dialed)) = [Data key_part2] /\
  key_part1 ++ zeros 22 <> key_part1 ++ key_part2.
Proof.
  repeat split; try (vm_compute; reflexivity).
  vm_compute. discriminate.
Qed.

(** The same two runs through the theorem: one read each, and the key
    is what that read returned over zeros. *)
Lemma split_key_read_once :
  let w := start (incoming [Data key_part1; Data key_part2] [Data b_priv]) in
  let served := Part000.handle_exchange sim_io toy w in
  let dialed := Part000.Dial sim_io toy w in
  (exists (srv : Part000.Server) (n : nat) (key : bytes) (evs : list event),
      fst served = Ok (Some srv) /\
      trace (snd served) = evs /\
      reads evs = [EvRead 32 n None key] /\
      Part000.PeersPublicKey (Part000.r_bx (Part000.s_rd srv))
        = Some (fst (go_copy (zeros 32) (firstn n key)))) /\
  (exists (c : Part000.Client) (n : nat) (e : option error) (key : bytes)
          (evs : list event),
      fst dialed = Ok (Some c, None) /\
      trace (snd dialed) = evs /\
      reads evs = [EvRead 32 n e key] /\
      Part000.PeersPublicKey (Part000.r_bx (Part000.c_rd c))
        = Some (fst (go_copy (zeros 32) (firstn n key)))).
Proof.
  intros w served dialed.
  destruct (@key_exchange_reads_once sim sim_io toy) as [Hserve Hdial].
  set (partial := Part000.NewBoxKeys (Some b_pub) (Some (key_part1 ++ zeros 22))
                    (Some b_priv)).
  assert (H1 : served = (Ok (Some (Part000.NewServer (Part000.NewReader partial)
                                      (Part000.NewWriter partial))), snd served))
    by (vm_compute; reflexivity).
  assert (H2 : dialed = (Ok (Some (Part000.NewClient (Part000.NewReader partial)
                                      (Part000.NewWriter partial)), None),
                         snd dialed))
    by (vm_compute; reflexivity).
  split.
  - destruct (Hserve _ _ _ H1) as (n & key & evs & Htr & Hrd & Hkey).
    exists (Part000.NewServer (Part000.NewReader partial) (Part000.NewWriter partial)),
           n, key, evs.
    rewrite H1 at 1. now repeat split.
  - destruct (Hdial _ _ _ H2) as (n & e & key & evs & Htr & Hrd & Hkey).
    exists (Part000.NewClient (Part000.NewReader partial) (Part000.NewWriter partial)),
           n, e, key, evs.
    rewrite H2 at 1. now repeat split.
Defined.

(** C4 at a connection whose first read fails (error 104, connection
    reset) and whose write succeeds: [Dial] does not look at the error
    of the read, takes 32 zero bytes as the peer's key and returns an
    established client and no error.  [handle] on the same failure
    prints the error and returns before any reader or writer exists. *)
Theorem Dial_proceeds_after_failed_read :
  let blank := Part000.NewBoxKeys (Some a_pub) (Some (zeros 32)) (Some a_priv) in
  let w := start (incoming [Fail (OSError 104)] [Data a_priv]) in
  Part000.Dial sim_io toy w
    = (Ok (Some (Part000.NewClient (Part000.NewReader blank)
                   (Part000.NewWriter blank)), None),
       World {| dial_error := None; inbox := []; rng := [];
                write_errors := []; outbox := [a_pub] |}
         [EvDial None; EvRand 32 a_priv None;
          EvRead 32 0 (Some (OSError 104)) (zeros 32);
          EvWrite a_pub 32 None]) /\
  Part000.handle_exchange sim_io toy w
    = (Ok None,
       World {| dial_error := None; inbox := []; rng := [];
                write_errors := []; outbox := [a_pub] |}
         [EvRand 32 a_priv None; EvWrite a_pub 32 None;
          EvRead 32 0 (Some (OSError 104)) (zeros 32);
          EvPrint (OSError 104)]).
Proof. split; vm_compute; reflexivity. Qed.

(** ** The echo loop *)

Section EchoLoop.
Context {S : Type} (io : IO S) (nacl : NaCl).

(** The responder is established only after its three steps went
    through without an error. *)
Lemma handle_exchange_all_or_nothing
      (w w' : world S) (srv : Part000.Server) :
  Part000.handle_exchange io nacl w = (Ok (Some srv), w') ->
  exists (got pub key : bytes) (k n : nat),
    trace w' = trace w ++ [EvRand 32 got None; EvWrite pub k None;
                           EvRead 32 n None key].
Proof.
  intros Hrun.
  unfold Part000.handle_exchange, bind in Hrun.
  destruct (io_rand io (st w) 32) as [[got e] s1] eqn:Hr.
  rewrite (NewBox_run io nacl w Hr) in Hrun.
  destruct e as [e|]; [simpl in Hrun; discriminate|].
  cbn [deref Part000.PublicKey Part000.NewBoxKeys ret] in Hrun.
  unfold conn_Write, conn_Read in Hrun. cbn [st trace] in Hrun.
  destruct (io_write io s1 _) as [[k e] s2].
  destruct e as [e|]; [simpl in Hrun; discriminate|].
  cbn [st trace] in Hrun.
  destruct (io_read io s2 (zeros 32)) as [[[n e] key] s3].
  destruct e as [e|]; [simpl in Hrun; discriminate|].
  unfold slice_to, ret, panic in Hrun.
  destruct (Nat.leb n (length key)); [|discriminate].
  exists got, (scalar_base nacl (fst (go_copy (zeros 32) got))), key, k, n.
  assert (Hw' : World s3 (((trace w ++ [EvRand 32 got None])
                 ++ [EvWrite (scalar_base nacl (fst (go_copy (zeros 32) got))) k None])
                 ++ [EvRead (length (zeros 32)) n None key]) = w')
    by congruence.
  rewrite <- Hw', zeros_length. simpl. now rewrite <- !app_assoc.
Qed.

Hypothesis seal_length : forall (m : bytes) (n : nonce24) (k : key),
  length (secretbox_seal nacl m n k) = length m + Overhead.

(** C10: the echo loop reads into a buffer of [MAX_BUFFER] = 1024
    bytes.  Of the frame of a message longer than 984 bytes the read
    returns a proper prefix; when the primitive rejects the box cut
    short, the turn prints the decryption error and [handle]
    returns: nothing is written back. *)
Theorem long_frame_ends_echo_loop
    (srv : Part000.Server) (w : world S) (m : bytes) (nonce : nonce24)
    (kc peers priv : key) (n : nat) (p1 : bytes) (s1 : S) :
  let frame := nonce ++ secretbox_seal nacl m nonce kc in
  let k := precompute nacl peers priv in
  length nonce = 24 ->
  984 < length m ->
  io_read io (st w) (zeros Part000.MAX_BUFFER) = (n, None, p1, s1) ->
  length p1 = Part000.MAX_BUFFER -> n <= Part000.MAX_BUFFER -> 24 <= n ->
  firstn n p1 = firstn n frame ->
  Part000.PeersPublicKey (Part000.r_bx (Part000.s_rd srv)) = Some peers ->
  Part000.privateKey (Part000.r_bx (Part000.s_rd srv)) = Some priv ->
  secretbox_open nacl (skipn 24 (firstn n frame)) nonce k = None ->
  Part000.MAX_BUFFER < length frame /\
  n < length frame /\
  forall fuel : nat,
    Part000.handle_loop io nacl (Datatypes.S fuel) srv w =
      (Ok Part000.Returned,
       World s1
         (trace w ++ [EvRead Part000.MAX_BUFFER n None p1;
                      EvOpen (skipn 24 (firstn n frame)) nonce k;
                      EvPrint Part000.errDecrypt])).
Proof.
  intros frame k Hnonce Hlong Hrd Hp1 Hn H24 Hprefix Hp Hk Hopen.
  assert (Hlen : length frame = 24 + length m + Overhead).
  { unfold frame. rewrite length_app, seal_length. lia. }
  assert (Hmax : Part000.MAX_BUFFER = 1024) by reflexivity.
  unfold Overhead in Hlen.
  split; [lia|]. split; [lia|].
  intros fuel.
  assert (Hfirst : firstn 24 (firstn n p1) = nonce).
  { rewrite Hprefix, firstn_firstn, Nat.min_l by lia.
    unfold frame.
    rewrite <- Hnonce, firstn_app, firstn_all, Nat.sub_diag, firstn_0.
    apply app_nil_r. }
  cbn [Part000.handle_loop]. unfold bind, Part000.handle_turn, bind.
  rewrite (@Reader_Read_run S io nacl (Part000.s_rd srv) _ w n p1 s1 peers priv
             Hrd); [| lia | exact H24 | exact Hp | exact Hk ].
  rewrite Hfirst, Hprefix. fold k. rewrite Hopen.
  rewrite zeros_length.
  cbn [error_eqb Part000.errDecrypt]. unfold emit, ret.
  cbn [st trace]. now rewrite <- app_assoc.
Qed.
End EchoLoop.

(** A message of 985 bytes sent to the responder: its frame has 1025
    bytes, the read returns the first 1024, and [handle] returns
    after printing the decryption error, with nothing written back. *)
Lemma long_message_is_not_echoed :
  let frame := frame_of long_message draw1 in
  let w := start (incoming [Data frame] []) in
  let srv := Part000.NewServer (Part000.NewReader boxB) (Part000.NewWriter boxB) in
  length frame = 1025 /\
  forall fuel : nat,
    Part000.handle_loop sim_io toy (Datatypes.S fuel) srv w =
      (Ok Part000.Returned,
       World (incoming [Data (skipn 1024 frame)] [])
         [EvRead 1024 1024 None (firstn 1024 frame);
          EvOpen (skipn 24 (firstn 1024 frame)) draw1 (toy_precompute a_pub b_priv);
          EvPrint Part000.errDecrypt]).
Proof.
  intros frame w srv.
  assert (Hrd : io_read sim_io (st w) (zeros Part000.MAX_BUFFER)
                = (1024, None, firstn 1024 frame,
                   incoming [Data (skipn 1024 frame)] []))
    by (vm_compute; reflexivity).
  destruct (@long_frame_ends_echo_loop sim sim_io toy toy_seal_length srv w
              long_message draw1 (toy_precompute b_pub a_priv) a_pub b_priv
              1024 (firstn 1024 frame) (incoming [Data (skipn 1024 frame)] []))
    as (_ & _ & Hloop).
  - reflexivity.
  - vm_compute; lia.
  - exact Hrd.
  - vm_compute; reflexivity.
  - vm_compute; lia.
  - lia.
  - vm_compute; reflexivity.
  - reflexivity.
  - reflexivity.
  - vm_compute; reflexivity.
  - split; [vm_compute; reflexivity|].
    intros fuel. rewrite (Hloop fuel). reflexivity.
Defined.

(** * Further properties of the two files *)

(** ** Failures before and inside the codec *)

Section CodecEdges.
Context {S : Type} (io : IO S) (nacl : NaCl).

Opaque go_copy zeros.

Lemma go_copy_count (dst src : bytes) :
  snd (go_copy dst src) = Nat.min (length dst) (length src).
Proof. Transparent go_copy. reflexivity. Opaque go_copy. Qed.

(** X1: when the random source fails, [Encrypt] returns its error
    and no frame, [Writer.Write] returns 0 and the error,
    [SecureWriter.Write] returns the count of the random read and the
    error; in all three nothing is sealed and nothing is written. *)
Theorem entropy_failure_stops_the_write
    (w : world S) (got : bytes) (e : error) (s1 : S) :
  io_rand io (st w) 24 = (got, Some e, s1) ->
  let w1 := World s1 (trace w ++ [EvRand 24 got (Some e)]) in
  (forall (b : Part000.Box) (m : bytes),
      Part000.Encrypt io nacl b m w = (Ok ([], Some e), w1)) /\
  (forall (wr : Part000.Writer) (p : bytes),
      Part000.Writer_Write io nacl wr p w = (Ok (0, Some e), w1)) /\
  (forall (sw : MainGo.SecureWriter) (p : bytes),
      MainGo.SecureWriter_Write io nacl sw p w
        = (Ok (Z.of_nat (Nat.min 24 (length got)), Some e), w1)).
Proof.
  intros Hr w1.
  assert (Henc : forall (b : Part000.Box) (m : bytes),
             Part000.Encrypt io nacl b m w = (Ok ([], Some e), w1)).
  { intros b m. unfold Part000.Encrypt, rand_Read, bind.
    rewrite zeros_length, Hr.
    now destruct (go_copy (zeros 24) got). }
  split; [exact Henc|]. split.
  - intros wr p. unfold Part000.Writer_Write, bind. now rewrite Henc.
  - intros sw p. unfold MainGo.SecureWriter_Write, rand_Read, bind.
    rewrite zeros_length, Hr.
    replace (Nat.min 24 (length got)) with (snd (go_copy (zeros 24) got))
      by (now rewrite go_copy_count, zeros_length).
    now destruct (go_copy (zeros 24) got).
Qed.

(** X2: a box as [NewBox] returns it has no peer's key, and a box
    without the peer's key cannot be used: [Encrypt] draws its nonce
    and then panics on the nil pointer, [Decrypt] panics on any input
    of at least 24 bytes; neither reaches the primitive. *)
Theorem box_without_peer_key_panics :
  (forall (w w' : world S) (bx : Part000.Box),
      Part000.NewBox io nacl w = (Ok (bx, None), w') ->
      Part000.PeersPublicKey bx = None) /\
  (forall (b : Part000.Box) (m : bytes) (w : world S) (got : bytes) (s1 : S),
      Part000.PeersPublicKey b = None ->
      io_rand io (st w) 24 = (got, None, s1) ->
      Part000.Encrypt io nacl b m w
        = (Panic "invalid memory address or nil pointer dereference",
           World s1 (trace w ++ [EvRand 24 got None]))) /\
  (forall (b : Part000.Box) (em : bytes) (w : world S),
      Part000.PeersPublicKey b = None ->
      24 <= length em ->
      Part000.Decrypt nacl b em w
        = (Panic "invalid memory address or nil pointer dereference", w)).
Proof.
  split; [|split].
  - intros w w' bx Hrun.
    unfold Part000.NewBox, bind in Hrun.
    destruct (box_GenerateKey io nacl w) as [[[[pub priv] [e|]]|msg] w1];
      unfold ret in Hrun; try discriminate.
    assert (Hbx : Part000.NewBoxKeys (Some pub) None (Some priv) = bx)
      by congruence.
    now rewrite <- Hbx.
  - intros b m w got s1 Hp Hr.
    unfold Part000.Encrypt, rand_Read, bind.
    rewrite zeros_length, Hr.
    destruct (go_copy (zeros 24) got). now rewrite Hp.
  - intros b em w Hp H24.
    unfold Part000.Decrypt, slice_from, bind.
    destruct (Nat.leb_spec 24 (length em)) as [_|Hlt]; [|lia].
    now rewrite Hp.
Qed.

(** X3: fewer than 24 bytes make the decoder of the second file
    panic.  [Decrypt] panics at [em[24:]] before the primitive, and so
    does [Reader.Read] whenever the underlying read returns fewer than
    24 bytes and no error, a read of zero bytes included. *)
Theorem fewer_than_24_bytes_panic :
  (forall (b : Part000.Box) (em : bytes) (w : world S),
      length em < 24 ->
      Part000.Decrypt nacl b em w = (Panic "slice bounds out of range", w)) /\
  (forall (r : Part000.Reader) (p : bytes) (w : world S)
          (n : nat) (p1 : bytes) (s1 : S),
      io_read io (st w) p = (n, None, p1, s1) ->
      n < 24 ->
      Part000.Reader_Read io nacl r p w
        = (Panic "slice bounds out of range",
           World s1 (trace w ++ [EvRead (length p) n None p1]))).
Proof.
  split.
  - intros b em w Hlt. now apply Decrypt_panics.
  - intros r p w n p1 s1 Hrd Hlt.
    unfold Part000.Reader_Read, conn_Read, slice_to, bind. rewrite Hrd.
    destruct (Nat.leb_spec n (length p1)) as [Hle|Hgt]; [|reflexivity].
    unfold ret at 1.
    rewrite (@Decrypt_panics S nacl (Part000.r_bx r) (firstn n p1));
      [reflexivity|].
    rewrite length_firstn. lia.
Qed.

Transparent go_copy zeros.
End CodecEdges.

(** The random source fails with error 5: nothing is sealed or
    written by any of the three. *)
Lemma entropy_failure_run :
  let w := start (quiet [Fail (OSError 5)]) in
  let w1 := World (quiet []) [EvRand 24 [] (Some (OSError 5))] in
  Part000.Encrypt sim_io toy boxA hello w = (Ok ([], Some (OSError 5)), w1) /\
  Part000.Writer_Write sim_io toy (Part000.NewWriter boxA) hello w
    = (Ok (0, Some (OSError 5)), w1) /\
  MainGo.SecureWriter_Write sim_io toy (MainGo.NewSecureWriter toy a_priv b_pub)
      hello w
    = (Ok (0%Z, Some (OSError 5)), w1).
Proof.
  intros w w1.
  assert (Hr : io_rand sim_io (st w) 24 = ([], Some (OSError 5), quiet []))
    by reflexivity.
  destruct (entropy_failure_stops_the_write sim_io toy w Hr) as (H1 & H2 & H3).
  split; [exact (H1 boxA hello)|].
  split; [exact (H2 (Part000.NewWriter boxA) hello)|].
  exact (H3 (MainGo.NewSecureWriter toy a_priv b_pub) hello).
Defined.

(** A box straight from [NewBox] panics in [Encrypt] and [Decrypt]. *)
Lemma fresh_box_run :
  let fresh := Part000.NewBoxKeys (Some a_pub) None (Some a_priv) in
  fst (Part000.NewBox sim_io toy (start (quiet [Data a_priv])))
    = Ok (fresh, None) /\
  Part000.PeersPublicKey fresh = None /\
  Part000.Encrypt sim_io toy fresh hello (start (quiet [Data draw1]))
    = (Panic "invalid memory address or nil pointer dereference",
       World (quiet []) [EvRand 24 draw1 None]) /\
  Part000.Decrypt toy fresh (frame_of hello draw1) (start (quiet []))
    = (Panic "invalid memory address or nil pointer dereference",
       start (quiet [])).
Proof.
  intros fresh.
  destruct (@box_without_peer_key_panics sim sim_io toy) as (Hnew & Henc & Hdec).
  set (r := Part000.NewBox sim_io toy (start (quiet [Data a_priv]))).
  assert (Hrun : r = (Ok (fresh, None), snd r)) by (vm_compute; reflexivity).
  split; [now rewrite Hrun|].
  split; [exact (Hnew _ _ _ Hrun)|].
  split.
  - apply (Henc fresh hello (start (quiet [Data draw1])) draw1 (quiet []));
      reflexivity.
  - apply (Hdec fresh (frame_of hello draw1) (start (quiet []))).
    + reflexivity.
    + vm_compute; lia.
Defined.

(** Five bytes to [Decrypt], and a read that returns zero bytes and
    no error to [Reader.Read]. *)
Lemma short_input_run :
  Part000.Decrypt toy boxB hello (start (quiet []))
    = (Panic "slice bounds out of range", start (quiet [])) /\
  Part000.Reader_Read sim_io toy (Part000.NewReader boxB) (zeros 64)
      (start (incoming [Data []] []))
    = (Panic "slice bounds out of range",
       World (incoming [] []) [EvRead 64 0 None (zeros 64)]).
Proof.
  destruct (@fewer_than_24_bytes_panic sim sim_io toy) as (Hdec & Hread).
  split.
  - apply Hdec. simpl; lia.
  - assert (Hrd : io_read sim_io (st (start (incoming [Data []] []))) (zeros 64)
                  = (0, None, zeros 64, incoming [] [])) by reflexivity.
    rewrite (Hread (Part000.NewReader boxB) _ _ _ _ _ Hrd); [reflexivity|lia].
Defined.

(** ** Buffers too small to hold a frame *)

Lemma TrimLeft_length (s : bytes) : length (TrimLeft s) <= length s.
Proof.
  destruct (TrimLeft_suffix s) as [z Hz].
  rewrite Hz at 2. rewrite length_app. lia.
Qed.

Lemma Trim_length (s : bytes) : length (Trim s) <= length s.
Proof.
  unfold Trim, TrimRight.
  rewrite length_rev.
  etransitivity; [apply TrimLeft_length|].
  rewrite length_rev. apply TrimLeft_length.
Qed.

Lemma TrimLeft_all_zero (s : bytes) :
  Forall (fun b => b = x00) s -> TrimLeft s = [].
Proof.
  induction 1 as [|b s Hb _ IH]; simpl; [reflexivity|].
  subst b. exact IH.
Qed.

Lemma Trim_all_zero (s : bytes) : Forall (fun b => b = x00) s -> Trim s = [].
Proof.
  intros Hz. unfold Trim. now rewrite (TrimLeft_all_zero Hz).
Qed.

Section SmallBuffers.
Context {S : Type} (io : IO S) (nacl : NaCl).

(** X4: [SecureReader.Read] of main.go panics at [em[24:]], before
    the primitive, whenever the underlying read succeeds and leaves a
    buffer that is shorter than 24 bytes or holds zero bytes only, as
    after a read of zero bytes into a fresh buffer. *)
Theorem SecureReader_Read_panics_on_blank_buffer
    (r : MainGo.SecureReader) (p : bytes) (w : world S)
    (n : nat) (p1 : bytes) (s1 : S) :
  io_read io (st w) p = (n, None, p1, s1) ->
  length p1 < 24 \/ Forall (fun b => b = x00) p1 ->
  MainGo.SecureReader_Read io nacl r p w
    = (Panic "slice bounds out of range",
       World s1 (trace w ++ [EvRead (length p) n None p1])).
Proof.
  intros Hrd Hblank.
  apply (SecureReader_Read_panics io nacl r p w Hrd).
  destruct Hblank as [Hshort | Hzero].
  - pose proof (Trim_length p1). lia.
  - rewrite (Trim_all_zero Hzero). simpl. lia.
Qed.

Hypothesis open_short : forall (c : bytes) (n : nonce24) (k : key),
  length c < Overhead -> secretbox_open nacl c n k = None.

Lemma Decrypt_short_never_opens (b : Part000.Box) (em : bytes) (w : world S) :
  length em < 24 + Overhead ->
  forall (dm : bytes) (w' : world S),
    Part000.Decrypt nacl b em w <> (Ok (dm, None), w').
Proof.
  intros Hlen dm w' Hrun.
  destruct (Nat.lt_ge_cases (length em) 24) as [Hlt|Hge].
  - rewrite (Decrypt_panics nacl b em w Hlt) in Hrun. discriminate.
  - destruct (Part000.PeersPublicKey b) as [peers|] eqn:Hp.
    + destruct (Part000.privateKey b) as [priv|] eqn:Hk.
      * rewrite (@Decrypt_run S nacl b em w peers priv Hge Hp Hk) in Hrun.
        rewrite open_short in Hrun; [discriminate|].
        rewrite length_skipn. lia.
      * unfold Part000.Decrypt, slice_from, bind in Hrun.
        destruct (Nat.leb 24 (length em)); [|discriminate].
        rewrite Hp, Hk in Hrun. discriminate.
    + unfold Part000.Decrypt, slice_from, bind in Hrun.
      destruct (Nat.leb 24 (length em)); [|discriminate].
      rewrite Hp in Hrun. discriminate.
Qed.

Lemma Reader_Read_small_buffer (r : Part000.Reader) (p : bytes) (w : world S)
      (n : nat) (e : option error) (p1 : bytes) (s1 : S) :
  io_read io (st w) p = (n, e, p1, s1) ->
  length p1 < 24 + Overhead ->
  forall (buf : bytes) (k : nat) (w' : world S),
    Part000.Reader_Read io nacl r p w <> (Ok (buf, k, None), w').
Proof.
  intros Hrd Hlen buf k w' Hrun.
  unfold Part000.Reader_Read, conn_Read, slice_to, bind in Hrun.
  rewrite Hrd in Hrun.
  destruct e as [e|]; [discriminate|].
  destruct (Nat.leb_spec n (length p1)) as [Hle|Hgt]; [|discriminate].
  unfold ret at 1 in Hrun.
  destruct (Part000.Decrypt nacl (Part000.r_bx r) (firstn n p1)
              (World s1 (trace w ++ [EvRead (length p) n None p1])))
    as [[[dm [e|]]|msg] w2] eqn:Hdec; try discriminate.
  assert (Hem : length (firstn n p1) < 24 + Overhead)
    by (rewrite length_firstn; lia).
  exact (@Decrypt_short_never_opens _ _ _ Hem _ _ Hdec).
Qed.

(** X5: a buffer of fewer than 40 bytes never receives a plaintext.
    Whatever the underlying read does, when the buffer it leaves has
    fewer than 24 + 16 bytes, [Read] of either secure reader does not
    return without an error: it returns the I/O error or the
    decryption error, or it panics. *)
Theorem buffer_under_40_bytes_never_succeeds
    (p : bytes) (w : world S) (n : nat) (e : option error) (p1 : bytes) (s1 : S) :
  io_read io (st w) p = (n, e, p1, s1) ->
  length p1 < 24 + Overhead ->
  (forall (r : Part000.Reader) (buf : bytes) (k : nat) (w' : world S),
      Part000.Reader_Read io nacl r p w <> (Ok (buf, k, None), w')) /\
  (forall (r : MainGo.SecureReader) (buf : bytes) (k : Z) (w' : world S),
      MainGo.SecureReader_Read io nacl r p w <> (Ok (buf, k, None), w')).
Proof.
  intros Hrd Hlen. split.
  - intros r. now apply (Reader_Read_small_buffer r p w Hrd).
  - intros r buf k w' Hrun.
    destruct e as [e|].
    + unfold MainGo.SecureReader_Read, conn_Read, bind in Hrun.
      rewrite Hrd in Hrun. discriminate.
    + pose proof (Trim_length p1) as Htrim.
      destruct (Nat.lt_ge_cases (length (Trim p1)) 24) as [Hlt|Hge].
      * rewrite (SecureReader_Read_panics io nacl r p w Hrd Hlt) in Hrun.
        discriminate.
      * rewrite (SecureReader_Read_run io nacl r p w Hrd Hge) in Hrun.
        rewrite open_short in Hrun; [discriminate|].
        rewrite length_skipn. lia.
Qed.

(** The underlying reader leaves the buffer as long as it was. *)
Hypothesis read_keeps_length :
  forall (s : S) (p : bytes) (n : nat) (e : option error) (p1 : bytes) (s' : S),
    io_read io s p = (n, e, p1, s') -> length p1 = length p.

(** X6: the client mode of [main] reads the answer into a buffer as
    long as the message, 40 bytes less than the frame that carries the
    echo.  For every message of fewer than 40 bytes it therefore never
    prints an answer: it ends in [log.Fatal] or in a panic. *)
Theorem main_client_never_prints_short_message
    (message : bytes) (w : world S) :
  length message < 24 + Overhead ->
  forall (out : bytes) (w' : world S),
    Part000.main_client io nacl message w <> (Ok (Part000.Printed out), w').
Proof.
  intros Hlen out w' Hrun.
  unfold Part000.main_client, bind in Hrun.
  destruct (Part000.Dial io nacl w) as [[[conn [e|]]|msg] w1];
    try discriminate.
  destruct conn as [c|]; [|discriminate].
  destruct (Part000.Client_Write io nacl c message w1)
    as [[[k [e|]]|msg] w2]; try discriminate.
  destruct (Part000.Client_Read io nacl c (zeros (length message)) w2)
    as [[[[buf n] [e|]]|msg] w3] eqn:Hread; try discriminate.
  unfold Part000.Client_Read in Hread.
  destruct (io_read io (st w2) (zeros (length message)))
    as [[[n0 e0] p1] s1] eqn:Hrd.
  apply (Reader_Read_small_buffer (Part000.c_rd c) _ w2 Hrd) in Hread;
    [exact Hread|].
  rewrite (read_keeps_length _ _ Hrd), zeros_length. exact Hlen.
Qed.
End SmallBuffers.

(** The scripted connection leaves the buffer as long as it was. *)
Lemma sim_read_keeps_length
      (s : sim) (p : bytes) (n : nat) (e : option error) (p1 : bytes) (s' : sim) :
  io_read sim_io s p = (n, e, p1, s') -> length p1 = length p.
Proof.
  simpl. unfold sim_read.
  destruct (inbox s) as [|[d|err] rest]; intros Heq.
  - now inversion Heq.
  - assert (Hp1 : firstn (Nat.min (length p) (length d)) d
                  ++ skipn (Nat.min (length p) (length d)) p = p1)
      by congruence.
    rewrite <- Hp1, length_app, length_firstn, length_skipn. lia.
  - now inversion Heq.
Qed.

(** A read of zero bytes into a fresh buffer of 64 bytes. *)
Lemma blank_buffer_run :
  MainGo.SecureReader_Read sim_io toy (MainGo.NewSecureReader toy b_priv a_pub)
      (zeros 64) (start (incoming [Data []] []))
    = (Panic "slice bounds out of range",
       World (incoming [] []) [EvRead 64 0 None (zeros 64)]).
Proof.
  assert (Hrd : io_read sim_io (st (start (incoming [Data []] []))) (zeros 64)
                = (0, None, zeros 64, incoming [] [])) by reflexivity.
  rewrite (SecureReader_Read_panics_on_blank_buffer sim_io toy
             (MainGo.NewSecureReader toy b_priv a_pub) _ _ Hrd).
  - reflexivity.
  - right. apply Forall_forall. intros b Hin.
    now apply repeat_spec in Hin.
Defined.

(** The frame of "hello" read into a buffer of five bytes. *)
Lemma five_byte_buffer_run :
  let w := start (incoming [Data (frame_of hello draw1)] []) in
  (forall (buf : bytes) (k : nat) (w' : world sim),
      Part000.Reader_Read sim_io toy (Part000.NewReader boxB) (zeros 5) w
        <> (Ok (buf, k, None), w')) /\
  (forall (buf : bytes) (k : Z) (w' : world sim),
      MainGo.SecureReader_Read sim_io toy
        (MainGo.NewSecureReader toy b_priv a_pub) (zeros 5) w
        <> (Ok (buf, k, None), w')) /\
  fst (Part000.Reader_Read sim_io toy (Part000.NewReader boxB) (zeros 5) w)
    = Panic "slice bounds out of range".
Proof.
  intros w.
  set (rd := io_read sim_io (st w) (zeros 5)).
  assert (Hrd : rd = (5, None, firstn 5 draw1, snd rd))
    by (vm_compute; reflexivity).
  destruct (@buffer_under_40_bytes_never_succeeds sim sim_io toy toy_open_short
              (zeros 5) w 5 None (firstn 5 draw1) (snd rd) Hrd) as [Hpart Hmain].
  - vm_compute; lia.
  - split; [exact (Hpart (Part000.NewReader boxB))|].
    split; [exact (Hmain (MainGo.NewSecureReader toy b_priv a_pub))|].
    vm_compute; reflexivity.
Defined.

(** The client sends "hello" to a server that answers as it should:
    the server's key and the 45 bytes of the echo arrive, the client
    reads five of them and panics. *)
Lemma main_client_hello_run :
  let w := start (incoming [Data b_pub; Data (frame_of hello draw2)]
                    [Data a_priv; Data draw1]) in
  fst (Part000.main_client sim_io toy hello w)
    = Panic "slice bounds out of range" /\
  outbox (st (snd (Part000.main_client sim_io toy hello w)))
    = [a_pub; frame_of hello draw1] /\
  forall (out : bytes) (w' : world sim),
    Part000.main_client sim_io toy hello w <> (Ok (Part000.Printed out), w').
Proof.
  intros w.
  split; [vm_compute; reflexivity|].
  split; [vm_compute; reflexivity|].
  apply (@main_client_never_prints_short_message sim sim_io toy toy_open_short
           sim_read_keeps_length hello w).
  vm_compute; lia.
Defined.

(** ** From a secure writer to a secure reader *)

Lemma go_copy_front (dst src : bytes) :
  length src <= length dst ->
  go_copy dst src = (src ++ skipn (length src) dst, length src).
Proof.
  intros Hle. unfold go_copy.
  rewrite Nat.min_r by lia. now rewrite firstn_all.
Qed.

Lemma frame_nonce (nonce box : bytes) :
  length nonce = 24 -> firstn 24 (nonce ++ box) = nonce.
Proof.
  intros Hn. rewrite <- Hn, firstn_app, firstn_all, Nat.sub_diag, firstn_0.
  apply app_nil_r.
Qed.

Lemma frame_box (nonce box : bytes) :
  length nonce = 24 -> skipn 24 (nonce ++ box) = box.
Proof.
  intros Hn. rewrite <- Hn, skipn_app, skipn_all, Nat.sub_diag.
  reflexivity.
Qed.

Lemma TrimLeft_zeros_app (j : nat) (s : bytes) :
  TrimLeft (zeros j ++ s) = TrimLeft s.
Proof.
  induction j as [|j IH]; [reflexivity|].
  change (zeros (Datatypes.S j)) with (x00 :: zeros j). simpl. exact IH.
Qed.

Lemma rev_zeros (j : nat) : rev (zeros j) = zeros j.
Proof.
  induction j as [|j IH]; [reflexivity|].
  change (zeros (Datatypes.S j)) with (x00 :: zeros j).
  simpl. rewrite IH. symmetry. apply repeat_cons.
Qed.

Lemma TrimLeft_keeps (s : bytes) : hd x00 s <> x00 -> TrimLeft s = s.
Proof.
  destruct s as [|b s]; [reflexivity|]. simpl. intros Hb.
  unfold is_zero. destruct (Byte.eqb b x00) eqn:Heq; [|reflexivity].
  now apply Byte.byte_dec_bl in Heq.
Qed.

(** Trimming gives back a frame with non-zero ends that sits in front
    of zero bytes. *)
Lemma Trim_zero_padded (f : bytes) (j : nat) :
  hd x00 f <> x00 -> last f x00 <> x00 -> Trim (f ++ zeros j) = f.
Proof.
  intros Hhd Hlast.
  assert (Hne : f <> []) by (intros ->; now apply Hhd).
  unfold Trim. rewrite TrimLeft_keeps by (destruct f; [congruence|exact Hhd]).
  unfold TrimRight.
  rewrite rev_app_distr, rev_zeros, TrimLeft_zeros_app.
  rewrite TrimLeft_keeps; [apply rev_involutive|].
  destruct (exists_last Hne) as [t [b ->]].
  rewrite last_last in Hlast. rewrite rev_app_distr. simpl. exact Hlast.
Qed.

Section RoundTrips.
Context {S : Type} (io : IO S) (nacl : NaCl).

Hypothesis dh_agree : forall a b : key,
  precompute nacl (scalar_base nacl b) a = precompute nacl (scalar_base nacl a) b.
Hypothesis open_seal : forall (m : bytes) (n : nonce24) (k : key),
  secretbox_open nacl (secretbox_seal nacl m n k) n k = Some m.
Hypothesis seal_length : forall (m : bytes) (n : nonce24) (k : key),
  length (secretbox_seal nacl m n k) = length m + Overhead.

(** X7: a writer made by [NewSecureWriter(w, A_priv, B_pub)] and a
    reader made by [NewSecureReader(r, B_priv, A_pub)] of the second
    file work together.  When the frame that the writer writes for [p]
    arrives whole in one underlying read, [Read] returns [len(p)] and
    no error and the plaintext [p] stands at the front of the buffer,
    the bytes behind it being those the underlying read left. *)
Theorem NewSecureWriter_to_NewSecureReader
    (p : bytes) (A_priv B_priv : key) (wa wb : world S) (got : bytes) (s1 s2 s3 : S)
    (k : nat) (buf p1 : bytes) :
  let A_pub := scalar_base nacl A_priv in
  let B_pub := scalar_base nacl B_priv in
  let shared := precompute nacl B_pub A_priv in
  let frame := got ++ secretbox_seal nacl p got shared in
  io_rand io (st wa) 24 = (got, None, s1) ->
  length got = 24 ->
  io_write io s1 frame = (k, None, s2) ->
  io_read io (st wb) buf = (length frame, None, p1, s3) ->
  length frame <= length p1 ->
  firstn (length frame) p1 = frame ->
  Part000.Writer_Write io nacl (Part000.NewSecureWriter A_priv B_pub) p wa
    = (Ok (k, None),
       World s2 (trace wa ++ [EvRand 24 got None; EvSeal p got shared;
                              EvWrite frame k None])) /\
  fst (Part000.Reader_Read io nacl (Part000.NewSecureReader B_priv A_pub) buf wb)
    = Ok (p ++ skipn (length p) p1, length p, None).
Proof.
  intros A_pub B_pub shared frame Hr Hgot Hw Hrd Hfit Hprefix.
  assert (Hflen : length frame = 24 + length p + Overhead).
  { unfold frame. rewrite length_app, seal_length. lia. }
  split.
  - pose proof (@Writer_Write_run S io nacl (Part000.NewSecureWriter A_priv B_pub)
                  p wa got s1 s2 k None B_pub A_priv) as Hrun.
    cbv zeta in Hrun.
    rewrite go_copy_exact in Hrun by (now rewrite zeros_length).
    now apply Hrun.
  - rewrite (@Reader_Read_run S io nacl (Part000.NewSecureReader B_priv A_pub)
               buf wb (length frame) p1 s3 A_pub B_priv Hrd Hfit);
      [| lia | reflexivity | reflexivity ].
    rewrite Hprefix. unfold frame at 1 2.
    rewrite frame_box, frame_nonce by exact Hgot.
    replace (precompute nacl A_pub B_priv) with shared
      by (unfold shared, A_pub, B_pub; apply dh_agree).
    rewrite open_seal.
    rewrite go_copy_front by lia. reflexivity.
Qed.

(** X8: the secure writer and reader of main.go work together on a
    frame whose first and last byte are not zero, read into a buffer
    that holds zero bytes behind it: [Read] returns [len(p)] and no
    error and [p] stands at the front of the buffer.  The count of the
    underlying read plays no part. *)
Theorem SecureWriter_to_SecureReader
    (p : bytes) (A_priv B_priv : key) (wa wb : world S) (got : bytes) (s1 s2 s3 : S)
    (k n j : nat) (buf : bytes) :
  let A_pub := scalar_base nacl A_priv in
  let B_pub := scalar_base nacl B_priv in
  let shared := MainGo.generateSharedKey nacl A_priv B_pub in
  let frame := got ++ secretbox_seal nacl p got shared in
  io_rand io (st wa) 24 = (got, None, s1) ->
  length got = 24 ->
  io_write io s1 frame = (k, None, s2) ->
  io_read io (st wb) buf = (n, None, frame ++ zeros j, s3) ->
  hd x00 frame <> x00 -> last frame x00 <> x00 ->
  MainGo.SecureWriter_Write io nacl (MainGo.NewSecureWriter nacl A_priv B_pub) p wa
    = (Ok (Z.of_nat (length frame), None),
       World s2 (trace wa ++ [EvRand 24 got None; EvSeal p got shared;
                              EvWrite frame k None])) /\
  fst (MainGo.SecureReader_Read io nacl
         (MainGo.NewSecureReader nacl B_priv A_pub) buf wb)
    = Ok (p ++ skipn (length p) (frame ++ zeros j), Z.of_nat (length p), None).
Proof.
  intros A_pub B_pub shared frame Hr Hgot Hw Hrd Hhd Hlast.
  assert (Hflen : length frame = 24 + length p + Overhead).
  { unfold frame. rewrite length_app, seal_length. lia. }
  split.
  - pose proof (@SecureWriter_Write_run S io nacl
                  (MainGo.NewSecureWriter nacl A_priv B_pub)
                  p wa got s1 s2 k None) as Hrun.
    cbv zeta in Hrun.
    rewrite go_copy_exact in Hrun by (now rewrite zeros_length).
    now apply Hrun.
  - assert (Htrim : Trim (frame ++ zeros j) = frame)
      by now apply Trim_zero_padded.
    rewrite (@SecureReader_Read_run S io nacl
               (MainGo.NewSecureReader nacl B_priv A_pub)
               buf wb n (frame ++ zeros j) s3 Hrd);
      [| rewrite Htrim; lia ].
    rewrite Htrim. unfold frame at 1 2.
    rewrite frame_box, frame_nonce by exact Hgot.
    replace (MainGo.r_key (MainGo.NewSecureReader nacl B_priv A_pub)) with shared
      by (unfold shared, MainGo.generateSharedKey, A_pub, B_pub; simpl;
          unfold MainGo.generateSharedKey; apply dh_agree).
    rewrite open_seal.
    rewrite go_copy_front by (rewrite length_app; lia). reflexivity.
Qed.
End RoundTrips.

(** "hello" from the writer of one side to the reader of the other,
    through a zeroed buffer of 64 bytes, in the second file. *)
Lemma hello_through_part000_adapters :
  let frame := frame_of hello draw1 in
  fst (Part000.Writer_Write sim_io toy (Part000.NewSecureWriter a_priv b_pub)
         hello (start (quiet [Data draw1])))
    = Ok (45, None) /\
  fst (Part000.Reader_Read sim_io toy (Part000.NewSecureReader b_priv a_pub)
         (zeros 64) (start (incoming [Data frame] [])))
    = Ok (hello ++ skipn 5 (frame ++ zeros 19), 5, None).
Proof.
  intros frame.
  destruct (@NewSecureWriter_to_NewSecureReader sim sim_io toy
              toy_dh_agree toy_open_seal toy_seal_length
              hello a_priv b_priv
              (start (quiet [Data draw1])) (start (incoming [Data frame] []))
              draw1 (quiet [])
              {| dial_error := None; inbox := []; rng := [];
                 write_errors := []; outbox := [frame] |}
              (incoming [] []) 45 (zeros 64) (frame ++ zeros 19))
    as [Hwrite Hread].
  - reflexivity.
  - reflexivity.
  - vm_compute; reflexivity.
  - vm_compute; reflexivity.
  - vm_compute; lia.
  - vm_compute; reflexivity.
  - split; [exact (f_equal fst Hwrite)|exact Hread].
Defined.

(** The same through the writer and the reader of main.go: the frame
    begins with 0x11 and does not end with a zero byte. *)
Lemma hello_through_main_go_adapters :
  let frame := frame_of hello draw1 in
  fst (MainGo.SecureWriter_Write sim_io toy
         (MainGo.NewSecureWriter toy a_priv b_pub)
         hello (start (quiet [Data draw1])))
    = Ok (45%Z, None) /\
  fst (MainGo.SecureReader_Read sim_io toy
         (MainGo.NewSecureReader toy b_priv a_pub)
         (zeros 64) (start (incoming [Data frame] [])))
    = Ok (hello ++ skipn 5 (frame ++ zeros 19), 5%Z, None).
Proof.
  intros frame.
  destruct (@SecureWriter_to_SecureReader sim sim_io toy
              toy_dh_agree toy_open_seal toy_seal_length
              hello a_priv b_priv
              (start (quiet [Data draw1])) (start (incoming [Data frame] []))
              draw1 (quiet [])
              {| dial_error := None; inbox := []; rng := [];
                 write_errors := []; outbox := [frame] |}
              (incoming [] []) 45 45 19 (zeros 64))
    as [Hwrite Hread].
  - reflexivity.
  - reflexivity.
  - vm_compute; reflexivity.
  - vm_compute; reflexivity.
  - vm_compute; discriminate.
  - vm_compute; discriminate.
  - split; [exact (f_equal fst Hwrite)|exact Hread].
Defined.

(** ** One write, one frame *)

Section OneFrame.
Context {S : Type} (io : IO S) (nacl : NaCl).

Hypothesis seal_length : forall (m : bytes) (n : nonce24) (k : key),
  length (secretbox_seal nacl m n k) = length m + Overhead.

Opaque go_copy zeros.

Lemma frame_length_any_draw (p got : bytes) (k : key) :
  length (fst (go_copy (zeros 24) got)
          ++ secretbox_seal nacl p (fst (go_copy (zeros 24) got)) k)
    = 24 + length p + Overhead.
Proof.
  rewrite length_app, seal_length, go_copy_length, zeros_length. lia.
Qed.

(** X9: a call of [Write] on either secure writer makes at most one
    underlying write.  It makes none when it returns early (the random
    source failed, or a key is missing and the call panics), and then
    it does not report success.  Otherwise it makes exactly one, of a
    frame of [24 + len(p) + 16] bytes, and returns the error of that
    write unchanged, with its count when there is an error. *)
Theorem Write_makes_at_most_one_write (p : bytes) (w : world S) :
  (forall wr : Part000.Writer,
      let run := Part000.Writer_Write io nacl wr p w in
      exists evs : list event,
        trace (snd run) = trace w ++ evs /\
        ((writes evs = [] /\ forall k : nat, fst run <> Ok (k, None)) \/
         (exists (frame : bytes) (k : nat) (e : option error),
             writes evs = [EvWrite frame k e] /\
             length frame = 24 + length p + Overhead /\
             fst run = Ok (k, e)))) /\
  (forall sw : MainGo.SecureWriter,
      let run := MainGo.SecureWriter_Write io nacl sw p w in
      exists evs : list event,
        trace (snd run) = trace w ++ evs /\
        ((writes evs = [] /\ forall k : Z, fst run <> Ok (k, None)) \/
         (exists (frame : bytes) (k : nat) (e : option error),
             writes evs = [EvWrite frame k e] /\
             length frame = 24 + length p + Overhead /\
             fst run = Ok (match e with
                           | Some _ => Z.of_nat k
                           | None => Z.of_nat (length frame)
                           end, e)))).
Proof.
  split.
  - intros wr run. unfold run. clear run.
    destruct (io_rand io (st w) 24) as [[got er] s1] eqn:Hr.
    destruct er as [er|].
    { exists [EvRand 24 got (Some er)].
      unfold Part000.Writer_Write, Part000.Encrypt, rand_Read, bind.
      rewrite zeros_length, Hr. destruct (go_copy (zeros 24) got).
      simpl. split; [reflexivity|]. left. split; [reflexivity|].
      intros k; discriminate. }
    destruct (Part000.PeersPublicKey (Part000.w_bx wr)) as [peers|] eqn:Hp.
    2:{ exists [EvRand 24 got None].
        unfold Part000.Writer_Write, Part000.Encrypt, rand_Read, bind.
        rewrite zeros_length, Hr. destruct (go_copy (zeros 24) got).
        rewrite Hp. simpl. split; [reflexivity|]. left. split; [reflexivity|].
        intros k; discriminate. }
    destruct (Part000.privateKey (Part000.w_bx wr)) as [priv|] eqn:Hk.
    2:{ exists [EvRand 24 got None].
        unfold Part000.Writer_Write, Part000.Encrypt, rand_Read, bind.
        rewrite zeros_length, Hr. destruct (go_copy (zeros 24) got).
        rewrite Hp, Hk. simpl. split; [reflexivity|]. left.
        split; [reflexivity|]. intros k; discriminate. }
    destruct (io_write io s1
                (fst (go_copy (zeros 24) got)
                 ++ secretbox_seal nacl p (fst (go_copy (zeros 24) got))
                      (precompute nacl peers priv))) as [[k e] s2] eqn:Hw.
    rewrite (Writer_Write_run io nacl wr p w Hr Hp Hk Hw).
    eexists. split; [reflexivity|]. right.
    eexists _, k, e. split; [reflexivity|].
    split; [apply frame_length_any_draw|reflexivity].
  - intros sw run. unfold run. clear run.
    destruct (io_rand io (st w) 24) as [[got er] s1] eqn:Hr.
    destruct er as [er|].
    { exists [EvRand 24 got (Some er)].
      unfold MainGo.SecureWriter_Write, rand_Read, bind.
      rewrite zeros_length, Hr. destruct (go_copy (zeros 24) got).
      simpl. split; [reflexivity|]. left. split; [reflexivity|].
      intros k; discriminate. }
    destruct (io_write io s1
                (fst (go_copy (zeros 24) got)
                 ++ secretbox_seal nacl p (fst (go_copy (zeros 24) got))
                      (MainGo.w_key sw))) as [[k e] s2] eqn:Hw.
    rewrite (SecureWriter_Write_run io nacl sw p w Hr Hw).
    eexists. split; [reflexivity|]. right.
    eexists _, k, e. split; [reflexivity|].
    split; [apply frame_length_any_draw|].
    now destruct e.
Qed.

Transparent go_copy zeros.
End OneFrame.

(** A write that the connection refuses with error 32 (broken pipe):
    one write event, the error handed back. *)
Lemma refused_write_run :
  let w := start {| dial_error := None; inbox := []; rng := [Data draw1];
                    write_errors := [Some (OSError 32)]; outbox := [] |} in
  fst (Part000.Writer_Write sim_io toy (Part000.NewWriter boxA) hello w)
    = Ok (0, Some (OSError 32)) /\
  writes (trace (snd (Part000.Writer_Write sim_io toy (Part000.NewWriter boxA)
                        hello w)))
    = [EvWrite (frame_of hello draw1) 0 (Some (OSError 32))] /\
  fst (MainGo.SecureWriter_Write sim_io toy
         (MainGo.NewSecureWriter toy a_priv b_pub) hello w)
    = Ok (0%Z, Some (OSError 32)) /\
  (exists evs : list event,
      trace (snd (Part000.Writer_Write sim_io toy (Part000.NewWriter boxA)
                    hello w)) = evs /\
      length (writes evs) <= 1).
Proof.
  intros w.
  split; [vm_compute; reflexivity|].
  split; [vm_compute; reflexivity|].
  split; [vm_compute; reflexivity|].
  destruct (@Write_makes_at_most_one_write sim sim_io toy toy_seal_length hello w)
    as [Hpart _].
  destruct (Hpart (Part000.NewWriter boxA)) as (evs & Htr & Hcases).
  exists evs. split; [exact Htr|].
  destruct Hcases as [[Hnone _] | (frame & k & e & Hone & _)].
  - rewrite Hnone. simpl. lia.
  - rewrite Hone. simpl. lia.
Defined.

(** ** Outcomes of the key exchange *)

Section ExchangeOutcomes.
Context {S : Type} (io : IO S) (nacl : NaCl).

Opaque go_copy zeros.

(** What [Dial] leaves behind when it returns a client. *)
Lemma Dial_established (w w' : world S) (c : Part000.Client) :
  Part000.Dial io nacl w = (Ok (Some c, None), w') ->
  exists (got key : bytes) (n k : nat) (e : option error),
    let priv := fst (go_copy (zeros 32) got) in
    let bx := Part000.NewBoxKeys (Some (scalar_base nacl priv))
                (Some (fst (go_copy (zeros 32) (firstn n key)))) (Some priv) in
    c = Part000.NewClient (Part000.NewReader bx) (Part000.NewWriter bx) /\
    trace w' = trace w ++ [EvDial None; EvRand 32 got None; EvRead 32 n e key;
                           EvWrite (scalar_base nacl priv) k None].
Proof.
  intros Hrun.
  unfold Part000.Dial, net_Dial, bind in Hrun.
  destruct (io_dial io (st w)) as [d s0].
  destruct d as [d|]; [simpl in Hrun; discriminate|].
  simpl in Hrun.
  destruct (io_rand io s0 32) as [[got e] s1] eqn:Hr.
  rewrite (@NewBox_run S io nacl (World s0 (trace w ++ [EvDial None])) got e s1 Hr)
    in Hrun.
  destruct e as [e|]; [simpl in Hrun; discriminate|].
  simpl in Hrun.
  unfold conn_Write, conn_Read in Hrun. simpl in Hrun.
  destruct (io_read io s1 (zeros 32)) as [[[n e] key] s2].
  unfold slice_to, ret, panic in Hrun.
  destruct (Nat.leb n (length key)); [|discriminate].
  simpl in Hrun.
  destruct (io_write io s2 _) as [[k e'] s3].
  destruct e' as [e'|]; [simpl in Hrun; discriminate|].
  injection Hrun as Hc Hw'.
  exists got, key, n, k, e. cbv zeta.
  subst c w'. simpl.
  rewrite zeros_length, <- !app_assoc. now split.
Qed.

(** What [handle] leaves behind when its key exchange goes through. *)
Lemma handle_established (w w' : world S) (srv : Part000.Server) :
  Part000.handle_exchange io nacl w = (Ok (Some srv), w') ->
  exists (got key : bytes) (n k : nat),
    let priv := fst (go_copy (zeros 32) got) in
    let bx := Part000.NewBoxKeys (Some (scalar_base nacl priv))
                (Some (fst (go_copy (zeros 32) (firstn n key)))) (Some priv) in
    srv = Part000.NewServer (Part000.NewReader bx) (Part000.NewWriter bx) /\
    trace w' = trace w ++ [EvRand 32 got None;
                           EvWrite (scalar_base nacl priv) k None;
                           EvRead 32 n None key].
Proof.
  intros Hrun.
  unfold Part000.handle_exchange, bind in Hrun.
  destruct (io_rand io (st w) 32) as [[got e] s1] eqn:Hr.
  rewrite (NewBox_run io nacl w Hr) in Hrun.
  destruct e as [e|]; [simpl in Hrun; discriminate|].
  simpl in Hrun.
  unfold conn_Write, conn_Read in Hrun. simpl in Hrun.
  destruct (io_write io s1 _) as [[k e] s2].
  destruct e as [e|]; [simpl in Hrun; discriminate|].
  simpl in Hrun.
  destruct (io_read io s2 (zeros 32)) as [[[n e] key] s3].
  destruct e as [e|]; [simpl in Hrun; discriminate|].
  simpl in Hrun. unfold slice_to, ret, panic in Hrun.
  destruct (Nat.leb n (length key)); [|discriminate].
  injection Hrun as Hsrv Hw'.
  exists got, key, n, k. cbv zeta.
  subst srv w'. simpl.
  rewrite zeros_length, <- !app_assoc. now split.
Qed.

(** X10: [Dial] returns an error only for a failed dial, a failed
    key generation or a failed write of its public key, and it stops
    at that step: after a failed dial nothing else happens, after a
    failed key generation the connection is neither read nor written.
    The error of the read of the peer's key is never what it returns,
    and no client comes with an error. *)
Theorem Dial_error_sources
    (w w' : world S) (conn : option Part000.Client) (e : error) :
  Part000.Dial io nacl w = (Ok (conn, Some e), w') ->
  conn = None /\
  exists evs : list event,
    trace w' = trace w ++ evs /\
    (evs = [EvDial (Some e)] \/
     (exists got : bytes, evs = [EvDial None; EvRand 32 got (Some e)]) \/
     (exists (got key pub : bytes) (n k : nat) (re : option error),
         evs = [EvDial None; EvRand 32 got None; EvRead 32 n re key;
                EvWrite pub k (Some e)])).
Proof.
  intros Hrun.
  unfold Part000.Dial, net_Dial, bind in Hrun.
  destruct (io_dial io (st w)) as [d s0].
  destruct d as [d|].
  { simpl in Hrun. injection Hrun as Hc He Hw'. subst conn d w'.
    split; [reflexivity|]. exists [EvDial (Some e)].
    split; [reflexivity|]. now left. }
  simpl in Hrun.
  destruct (io_rand io s0 32) as [[got er] s1] eqn:Hr.
  rewrite (@NewBox_run S io nacl (World s0 (trace w ++ [EvDial None])) got er s1 Hr)
    in Hrun.
  destruct er as [er|].
  { simpl in Hrun. injection Hrun as Hc He Hw'. subst conn er w'.
    split; [reflexivity|]. exists [EvDial None; EvRand 32 got (Some e)].
    simpl. rewrite <- app_assoc. split; [reflexivity|]. right; left.
    now exists got. }
  simpl in Hrun.
  unfold conn_Write, conn_Read in Hrun. simpl in Hrun.
  destruct (io_read io s1 (zeros 32)) as [[[n re] key] s2].
  unfold slice_to, ret, panic in Hrun.
  destruct (Nat.leb n (length key)); [|discriminate].
  simpl in Hrun.
  destruct (io_write io s2 _) as [[k ew] s3].
  destruct ew as [ew|]; [|simpl in Hrun; discriminate].
  injection Hrun as Hc He Hw'. subst conn ew w'.
  split; [reflexivity|].
  eexists. simpl. rewrite zeros_length, <- !app_assoc. simpl.
  split; [reflexivity|]. right; right.
  now eexists got, key, _, n, k, re.
Qed.

(** X11: the key exchange of [handle] stops at the first step that
    fails, prints that error and returns without a reader or writer;
    it is established only when key generation, the write of its own
    key and the read of the peer's key all returned no error, in this
    order: the responder writes before it reads. *)
Theorem handle_exchange_outcomes
    (w w' : world S) (r : option Part000.Server) :
  Part000.handle_exchange io nacl w = (Ok r, w') ->
  exists evs : list event,
    trace w' = trace w ++ evs /\
    match r with
    | Some _ =>
        exists (got pub key : bytes) (k n : nat),
          evs = [EvRand 32 got None; EvWrite pub k None; EvRead 32 n None key]
    | None =>
        exists e : error,
          (exists got : bytes, evs = [EvRand 32 got (Some e); EvPrint e]) \/
          (exists (got pub : bytes) (k : nat),
              evs = [EvRand 32 got None; EvWrite pub k (Some e); EvPrint e]) \/
          (exists (got pub key : bytes) (k n : nat),
              evs = [EvRand 32 got None; EvWrite pub k None;
                     EvRead 32 n (Some e) key; EvPrint e])
    end.
Proof.
  intros Hrun.
  unfold Part000.handle_exchange, bind in Hrun.
  destruct (io_rand io (st w) 32) as [[got er] s1] eqn:Hr.
  rewrite (NewBox_run io nacl w Hr) in Hrun.
  destruct er as [er|].
  { simpl in Hrun. injection Hrun as Hres Hw'. subst r w'.
    eexists. simpl. rewrite <- app_assoc. simpl. split; [reflexivity|].
    exists er. left. now exists got. }
  simpl in Hrun.
  unfold conn_Write, conn_Read in Hrun. simpl in Hrun.
  destruct (io_write io s1 _) as [[k ew] s2].
  destruct ew as [ew|].
  { simpl in Hrun. injection Hrun as Hres Hw'. subst r w'.
    eexists. simpl. rewrite <- !app_assoc. simpl. split; [reflexivity|].
    exists ew. right; left. now eexists got, _, k. }
  simpl in Hrun.
  destruct (io_read io s2 (zeros 32)) as [[[n re] key] s3].
  destruct re as [re|].
  { simpl in Hrun. injection Hrun as Hres Hw'. subst r w'.
    eexists. simpl. rewrite zeros_length, <- !app_assoc. simpl.
    split; [reflexivity|].
    exists re. right; right. now eexists got, _, key, k, n. }
  simpl in Hrun. unfold slice_to, ret, panic in Hrun.
  destruct (Nat.leb n (length key)); [|discriminate].
  injection Hrun as Hres Hw'. subst r w'.
  eexists. simpl. rewrite zeros_length, <- !app_assoc. simpl.
  split; [reflexivity|].
  now eexists got, _, key, k, n.
Qed.

(** X12: after a successful [Dial] and after a successful key
    exchange of [handle], reader and writer hold one and the same
    box; its private key and its peer's key are arrays of 32 bytes and
    its public key is the base point multiple of its private key. *)
Theorem established_box_invariant :
  (forall (w w' : world S) (c : Part000.Client),
      Part000.Dial io nacl w = (Ok (Some c, None), w') ->
      Part000.w_bx (Part000.c_wr c) = Part000.r_bx (Part000.c_rd c) /\
      exists priv peers : key,
        Part000.r_bx (Part000.c_rd c)
          = Part000.NewBoxKeys (Some (scalar_base nacl priv)) (Some peers)
              (Some priv) /\
        length priv = 32 /\ length peers = 32) /\
  (forall (w w' : world S) (srv : Part000.Server),
      Part000.handle_exchange io nacl w = (Ok (Some srv), w') ->
      Part000.w_bx (Part000.s_wr srv) = Part000.r_bx (Part000.s_rd srv) /\
      exists priv peers : key,
        Part000.r_bx (Part000.s_rd srv)
          = Part000.NewBoxKeys (Some (scalar_base nacl priv)) (Some peers)
              (Some priv) /\
        length priv = 32 /\ length peers = 32).
Proof.
  split.
  - intros w w' c Hrun.
    destruct (Dial_established _ Hrun) as (got & key & n & k & e & Hc & _).
    cbv zeta in Hc. subst c. simpl. split; [reflexivity|].
    eexists _, _. split; [reflexivity|].
    now rewrite !go_copy_length, zeros_length.
  - intros w w' srv Hrun.
    destruct (handle_established _ Hrun) as (got & key & n & k & Hsrv & _).
    cbv zeta in Hsrv. subst srv. simpl. split; [reflexivity|].
    eexists _, _. split; [reflexivity|].
    now rewrite !go_copy_length, zeros_length.
Qed.

Transparent go_copy zeros.
End ExchangeOutcomes.

(** ** Agreement after the key exchange *)

Section Agreement.
Context {S : Type} (io : IO S) (nacl : NaCl).

Hypothesis dh_agree : forall a b : key,
  precompute nacl (scalar_base nacl b) a = precompute nacl (scalar_base nacl a) b.
Hypothesis open_seal : forall (m : bytes) (n : nonce24) (k : key),
  secretbox_open nacl (secretbox_seal nacl m n k) n k = Some m.

Opaque go_copy zeros.

(** Two boxes that precompute the same key: what one encrypts, the
    other decrypts. *)
Lemma boxes_roundtrip (A B : Part000.Box) (pa ka pb kb : key)
      (m em : bytes) (w w1 w2 : world S) :
  Part000.PeersPublicKey A = Some pa -> Part000.privateKey A = Some ka ->
  Part000.PeersPublicKey B = Some pb -> Part000.privateKey B = Some kb ->
  precompute nacl pa ka = precompute nacl pb kb ->
  Part000.Encrypt io nacl A m w = (Ok (em, None), w1) ->
  fst (Part000.Decrypt nacl B em w2) = Ok (m, None).
Proof.
  intros HpA HkA HpB HkB Hkey Henc.
  destruct (Encrypt_ok_inv _ _ _ _ _ Henc)
    as (got & s1 & peers & priv & Hr & Hp & Hk).
  pose proof (Encrypt_run io nacl A m w Hr HpA HkA) as Hrun.
  cbv zeta in Hrun.
  set (nonce := fst (go_copy (zeros 24) got)) in *.
  assert (Hem : nonce ++ secretbox_seal nacl m nonce (precompute nacl pa ka) = em)
    by congruence.
  assert (Hn : length nonce = 24)
    by (unfold nonce; now rewrite go_copy_length, zeros_length).
  rewrite (@Decrypt_run S nacl B em w2 pb kb);
    [| rewrite <- Hem, length_app; lia | exact HpB | exact HkB ].
  rewrite <- Hem, frame_box, frame_nonce by exact Hn.
  rewrite <- Hkey, open_seal. reflexivity.
Qed.

(** X13: when [Dial] on one side and the key exchange of [handle] on
    the other both succeed and each side has received the public key
    that the other sent, the two boxes precompute the same key: every
    frame that either side encrypts is decrypted by the other side to
    the message that went in. *)
Theorem handshake_agreement
    (wc wc' ws ws' : world S) (c : Part000.Client) (srv : Part000.Server) :
  let cb := Part000.r_bx (Part000.c_rd c) in
  let sb := Part000.r_bx (Part000.s_rd srv) in
  Part000.Dial io nacl wc = (Ok (Some c, None), wc') ->
  Part000.handle_exchange io nacl ws = (Ok (Some srv), ws') ->
  Part000.PeersPublicKey cb = Part000.PublicKey sb ->
  Part000.PeersPublicKey sb = Part000.PublicKey cb ->
  (forall (m em : bytes) (w w1 w2 : world S),
      Part000.Encrypt io nacl cb m w = (Ok (em, None), w1) ->
      fst (Part000.Decrypt nacl sb em w2) = Ok (m, None)) /\
  (forall (m em : bytes) (w w1 w2 : world S),
      Part000.Encrypt io nacl sb m w = (Ok (em, None), w1) ->
      fst (Part000.Decrypt nacl cb em w2) = Ok (m, None)).
Proof.
  intros cb sb Hdial Hserve Hcs Hsc.
  destruct (@Dial_established S io nacl _ _ _ Hdial)
    as (gc & kc & nc & jc & ec & Hc & _).
  destruct (@handle_established S io nacl _ _ _ Hserve)
    as (gs & ks & ns & js & Hsrv & _).
  cbv zeta in Hc, Hsrv.
  set (privc := fst (go_copy (zeros 32) gc)) in *.
  set (privs := fst (go_copy (zeros 32) gs)) in *.
  assert (Hcb : cb = Part000.NewBoxKeys (Some (scalar_base nacl privc))
                       (Some (fst (go_copy (zeros 32) (firstn nc kc))))
                       (Some privc))
    by (unfold cb; now rewrite Hc).
  assert (Hsb : sb = Part000.NewBoxKeys (Some (scalar_base nacl privs))
                       (Some (fst (go_copy (zeros 32) (firstn ns ks))))
                       (Some privs))
    by (unfold sb; now rewrite Hsrv).
  rewrite Hcb, Hsb in Hcs, Hsc. simpl in Hcs, Hsc.
  rewrite Hcs in Hcb. rewrite Hsc in Hsb.
  split; intros m em w w1 w2 Henc.
  - apply (@boxes_roundtrip cb sb (scalar_base nacl privs) privc
             (scalar_base nacl privc) privs m em w w1 w2);
      try (rewrite Hcb; reflexivity); try (rewrite Hsb; reflexivity);
      [apply dh_agree | exact Henc].
  - apply (@boxes_roundtrip sb cb (scalar_base nacl privc) privs
             (scalar_base nacl privs) privc m em w w1 w2);
      try (rewrite Hcb; reflexivity); try (rewrite Hsb; reflexivity);
      [apply dh_agree | exact Henc].
Qed.

Transparent go_copy zeros.
End Agreement.

(** A dial that is refused (error 111): nothing else happens. *)
Lemma refused_dial_run :
  let s := {| dial_error := Some (OSError 111); inbox := [];
              rng := [Data a_priv]; write_errors := []; outbox := [] |} in
  Part000.Dial sim_io toy (start s)
    = (Ok (None, Some (OSError 111)), World s [EvDial (Some (OSError 111))]) /\
  exists evs : list event,
    trace (snd (Part000.Dial sim_io toy (start s))) = evs /\
    (evs = [EvDial (Some (OSError 111))] \/
     (exists got : bytes, evs = [EvDial None; EvRand 32 got (Some (OSError 111))]) \/
     (exists (got key pub : bytes) (n k : nat) (re : option error),
         evs = [EvDial None; EvRand 32 got None; EvRead 32 n re key;
                EvWrite pub k (Some (OSError 111))])).
Proof.
  intros s.
  assert (Hrun : Part000.Dial sim_io toy (start s)
                 = (Ok (None, Some (OSError 111)),
                    World s [EvDial (Some (OSError 111))]))
    by (vm_compute; reflexivity).
  split; [exact Hrun|].
  destruct (Dial_error_sources sim_io toy _ Hrun) as (_ & evs & Htr & Hcases).
  exists evs. split; [|exact Hcases].
  rewrite Hrun. exact Htr.
Defined.

(** The responder cannot write its key (error 32): it prints the
    error and is not established. *)
Lemma responder_write_refused_run :
  let s := {| dial_error := None; inbox := [Data a_pub];
              rng := [Data b_priv]; write_errors := [Some (OSError 32)];
              outbox := [] |} in
  fst (Part000.handle_exchange sim_io toy (start s)) = Ok None /\
  trace (snd (Part000.handle_exchange sim_io toy (start s)))
    = [EvRand 32 b_priv None; EvWrite b_pub 0 (Some (OSError 32));
       EvPrint (OSError 32)] /\
  inbox (st (snd (Part000.handle_exchange sim_io toy (start s)))) = [Data a_pub] /\
  exists evs : list event,
    trace (snd (Part000.handle_exchange sim_io toy (start s))) = evs /\
    exists e : error,
      (exists got : bytes, evs = [EvRand 32 got (Some e); EvPrint e]) \/
      (exists (got pub : bytes) (k : nat),
          evs = [EvRand 32 got None; EvWrite pub k (Some e); EvPrint e]) \/
      (exists (got pub key : bytes) (k n : nat),
          evs = [EvRand 32 got None; EvWrite pub k None;
                 EvRead 32 n (Some e) key; EvPrint e]).
Proof.
  intros s.
  set (run := Part000.handle_exchange sim_io toy (start s)).
  assert (Hrun : run = (Ok None, snd run)) by (vm_compute; reflexivity).
  split; [now rewrite Hrun|].
  split; [vm_compute; reflexivity|].
  split; [vm_compute; reflexivity|].
  destruct (handle_exchange_outcomes sim_io toy _ Hrun) as (evs & Htr & Hcases).
  exists evs. split; [exact Htr|exact Hcases].
Defined.

(** Both sides of a key exchange in which each receives the other's
    key: the boxes of the client and of the server. *)
Lemma exchanged_boxes_run :
  let wc := start (incoming [Data b_pub] [Data a_priv]) in
  let ws := start (incoming [Data a_pub] [Data b_priv]) in
  fst (Part000.Dial sim_io toy wc)
    = Ok (Some (Part000.NewClient (Part000.NewReader boxA)
                  (Part000.NewWriter boxA)), None) /\
  fst (Part000.handle_exchange sim_io toy ws)
    = Ok (Some (Part000.NewServer (Part000.NewReader boxB)
                  (Part000.NewWriter boxB))) /\
  (exists priv peers : key,
      boxA = Part000.NewBoxKeys (Some (scalar_base toy priv)) (Some peers)
               (Some priv) /\
      length priv = 32 /\ length peers = 32) /\
  (exists priv peers : key,
      boxB = Part000.NewBoxKeys (Some (scalar_base toy priv)) (Some peers)
               (Some priv) /\
      length priv = 32 /\ length peers = 32).
Proof.
  intros wc ws.
  set (dialed := Part000.Dial sim_io toy wc).
  set (served := Part000.handle_exchange sim_io toy ws).
  assert (H1 : dialed = (Ok (Some (Part000.NewClient (Part000.NewReader boxA)
                                     (Part000.NewWriter boxA)), None),
                         snd dialed)) by (vm_compute; reflexivity).
  assert (H2 : served = (Ok (Some (Part000.NewServer (Part000.NewReader boxB)
                                     (Part000.NewWriter boxB))), snd served))
    by (vm_compute; reflexivity).
  destruct (@established_box_invariant sim sim_io toy) as [Hdial Hserve].
  split; [now rewrite H1|]. split; [now rewrite H2|].
  split.
  - exact (proj2 (Hdial _ _ _ H1)).
  - exact (proj2 (Hserve _ _ _ H2)).
Defined.

(** After that exchange, "hello" goes from the client to the server
    and from the server to the client. *)
Lemma agreement_run :
  fst (Part000.Decrypt toy boxB (frame_of hello draw1) (start (quiet [])))
    = Ok (hello, None) /\
  fst (Part000.Encrypt sim_io toy boxB hello (start (quiet [Data draw2])))
    = Ok (frame_of hello draw2, None) /\
  fst (Part000.Decrypt toy boxA (frame_of hello draw2) (start (quiet [])))
    = Ok (hello, None).
Proof.
  set (wc := start (incoming [Data b_pub] [Data a_priv])).
  set (ws := start (incoming [Data a_pub] [Data b_priv])).
  set (dialed := Part000.Dial sim_io toy wc).
  set (served := Part000.handle_exchange sim_io toy ws).
  assert (H1 : dialed = (Ok (Some (Part000.NewClient (Part000.NewReader boxA)
                                     (Part000.NewWriter boxA)), None),
                         snd dialed)) by (vm_compute; reflexivity).
  assert (H2 : served = (Ok (Some (Part000.NewServer (Part000.NewReader boxB)
                                     (Part000.NewWriter boxB))), snd served))
    by (vm_compute; reflexivity).
  destruct (@handshake_agreement sim sim_io toy toy_dh_agree toy_open_seal
              _ _ _ _ _ _ H1 H2 eq_refl eq_refl) as [Hcs Hsc].
  set (e1 := Part000.Encrypt sim_io toy boxA hello (start (quiet [Data draw1]))).
  set (e2 := Part000.Encrypt sim_io toy boxB hello (start (quiet [Data draw2]))).
  assert (He1 : e1 = (Ok (frame_of hello draw1, None), snd e1))
    by (vm_compute; reflexivity).
  assert (He2 : e2 = (Ok (frame_of hello draw2, None), snd e2))
    by (vm_compute; reflexivity).
  split; [exact (Hcs _ _ _ _ (start (quiet [])) He1)|].
  split; [now rewrite He2|].
  exact (Hsc _ _ _ _ (start (quiet [])) He2).
Defined.

(** ** Turns of the echo loop *)

Section EchoTurns.
Context {S : Type} (io : IO S) (nacl : NaCl).

Opaque go_copy zeros.

(** X14: when the underlying read of a turn of the echo loop fails,
    [handle] returns at once without decrypting or writing; the error
    is printed unless it is [io.EOF], on which the function returns
    silently. *)
Theorem handle_returns_on_read_error
    (srv : Part000.Server) (w : world S)
    (n : nat) (e : error) (p1 : bytes) (s1 : S) :
  io_read io (st w) (zeros Part000.MAX_BUFFER) = (n, Some e, p1, s1) ->
  forall fuel : nat,
    Part000.handle_loop io nacl (Datatypes.S fuel) srv w =
      (Ok Part000.Returned,
       World s1 (trace w ++ EvRead Part000.MAX_BUFFER n (Some e) p1
                            :: (if error_eqb e EOF then [] else [EvPrint e]))).
Proof.
  intros Hrd fuel.
  cbn [Part000.handle_loop].
  unfold bind, Part000.handle_turn, Part000.Reader_Read, conn_Read, bind.
  rewrite Hrd, zeros_length. unfold ret at 1.
  destruct (error_eqb e EOF).
  - reflexivity.
  - unfold emit, ret. cbn [st trace]. now rewrite <- app_assoc.
Qed.

Hypothesis open_seal : forall (m : bytes) (n : nonce24) (k : key),
  secretbox_open nacl (secretbox_seal nacl m n k) n k = Some m.
Hypothesis seal_length : forall (m : bytes) (n : nonce24) (k : key),
  length (secretbox_seal nacl m n k) = length m + Overhead.

(** One turn of the loop on a frame that arrives whole. *)
Lemma handle_turn_run
      (srv : Part000.Server) (w : world S) (peers priv : key)
      (m : bytes) (nin nout : nonce24) (p1 : bytes) (s1 s2 s3 : S)
      (j : nat) (e : option error) :
  let k := precompute nacl peers priv in
  let frame_in := sealed_frame nacl k m nin in
  let frame_out := sealed_frame nacl k m nout in
  Part000.PeersPublicKey (Part000.r_bx (Part000.s_rd srv)) = Some peers ->
  Part000.privateKey (Part000.r_bx (Part000.s_rd srv)) = Some priv ->
  Part000.w_bx (Part000.s_wr srv) = Part000.r_bx (Part000.s_rd srv) ->
  length nin = 24 -> length nout = 24 -> length m <= 984 ->
  io_read io (st w) (zeros Part000.MAX_BUFFER) = (length frame_in, None, p1, s1) ->
  length p1 = Part000.MAX_BUFFER ->
  firstn (length frame_in) p1 = frame_in ->
  io_rand io s1 24 = (nout, None, s2) ->
  io_write io s2 frame_out = (j, e, s3) ->
  Part000.handle_turn io nacl srv w =
    (Ok match e with None => true | Some _ => false end,
     World s3
       (trace w ++ [EvRead Part000.MAX_BUFFER (length frame_in) None p1;
                    EvOpen (secretbox_seal nacl m nin k) nin k;
                    EvRand 24 nout None; EvSeal m nout k;
                    EvWrite frame_out j e]
                ++ match e with Some err => [EvPrint err] | None => [] end)).
Proof.
  intros k frame_in frame_out Hp Hk Hsame Hnin Hnout Hm Hrd Hp1 Hprefix Hr Hw.
  assert (Hmax : Part000.MAX_BUFFER = 1024) by reflexivity.
  assert (Hflen : length frame_in = 24 + length m + Overhead).
  { unfold frame_in, sealed_frame. rewrite length_app, seal_length. lia. }
  unfold Overhead in Hflen.
  assert (Hbox : skipn 24 frame_in = secretbox_seal nacl m nin k)
    by (unfold frame_in, sealed_frame; now apply frame_box).
  assert (Hnon : firstn 24 frame_in = nin)
    by (unfold frame_in, sealed_frame; now apply frame_nonce).
  unfold Part000.handle_turn, bind.
  rewrite (@Reader_Read_run S io nacl (Part000.s_rd srv) _ w _ p1 s1 peers priv
             Hrd); [| lia | lia | exact Hp | exact Hk ].
  rewrite Hprefix, Hbox, Hnon. fold k. rewrite open_seal.
  rewrite go_copy_front by lia. cbn [fst snd].
  unfold slice_to.
  destruct (Nat.leb_spec (length m) (length (m ++ skipn (length m) p1)))
    as [_|Hlt]; [|rewrite length_app in Hlt; lia].
  unfold ret at 1.
  rewrite firstn_app, firstn_all, Nat.sub_diag, firstn_0, app_nil_r.
  rewrite <- Hsame in Hp, Hk.
  match goal with
  | |- context [Part000.Writer_Write _ _ _ _ ?W] =>
      pose proof (@Writer_Write_run S io nacl (Part000.s_wr srv) m W
                    nout s2 s3 j e peers priv) as Hrun
  end.
  cbv zeta in Hrun.
  rewrite go_copy_exact in Hrun by (now rewrite zeros_length).
  rewrite (Hrun Hr Hp Hk Hw). clear Hrun.
  cbn [trace st]. rewrite zeros_length.
  fold k. fold (sealed_frame nacl k m nout). fold frame_out.
  destruct e as [err|].
  - unfold emit, ret. cbn [st trace]. now rewrite <- !app_assoc.
  - unfold ret. now rewrite <- !app_assoc, app_nil_r.
Qed.

(** X15: a turn of the echo loop on a frame that arrives whole in
    the buffer of 1024 bytes (message of at most 984 bytes, sealed
    under the key of the server's box): the server opens it, seals the
    same message under a freshly drawn nonce and writes that one
    frame.  The loop goes on when the write succeeds; when it fails
    the error is printed and [handle] returns. *)
Theorem handle_turn_echoes
    (srv : Part000.Server) (w : world S) (peers priv : key)
    (m : bytes) (nin nout : nonce24) (p1 : bytes) (s1 s2 s3 : S)
    (j : nat) (e : option error) :
  let k := precompute nacl peers priv in
  let frame_in := sealed_frame nacl k m nin in
  let frame_out := sealed_frame nacl k m nout in
  Part000.PeersPublicKey (Part000.r_bx (Part000.s_rd srv)) = Some peers ->
  Part000.privateKey (Part000.r_bx (Part000.s_rd srv)) = Some priv ->
  Part000.w_bx (Part000.s_wr srv) = Part000.r_bx (Part000.s_rd srv) ->
  length nin = 24 -> length nout = 24 -> length m <= 984 ->
  io_read io (st w) (zeros Part000.MAX_BUFFER) = (length frame_in, None, p1, s1) ->
  length p1 = Part000.MAX_BUFFER ->
  firstn (length frame_in) p1 = frame_in ->
  io_rand io s1 24 = (nout, None, s2) ->
  io_write io s2 frame_out = (j, e, s3) ->
  let run := Part000.handle_turn io nacl srv w in
  fst run = Ok match e with None => true | Some _ => false end /\
  st (snd run) = s3 /\
  writes (trace (snd run)) = writes (trace w) ++ [EvWrite frame_out j e] /\
  forall err : error,
    In (EvPrint err) (trace (snd run)) ->
    In (EvPrint err) (trace w) \/ e = Some err.
Proof.
  intros k frame_in frame_out Hp Hk Hsame Hnin Hnout Hm Hrd Hp1 Hprefix Hr Hw run.
  unfold run.
  rewrite (@handle_turn_run srv w peers priv m nin nout p1 s1 s2 s3 j e
             Hp Hk Hsame Hnin Hnout Hm Hrd Hp1 Hprefix Hr Hw).
  fold k frame_in frame_out. cbn [fst snd st trace].
  split; [reflexivity|]. split; [reflexivity|]. split.
  - unfold writes. rewrite !filter_app. cbn [filter is_write].
    destruct e; cbn [filter is_write]; now rewrite app_nil_r.
  - intros err Hin.
    apply in_app_or in Hin. destruct Hin as [Hin|Hin]; [now left|].
    apply in_app_or in Hin. destruct Hin as [Hin|Hin].
    + simpl in Hin. repeat (destruct Hin as [Hin|Hin]; [discriminate|]).
      contradiction.
    + destruct e as [e0|]; simpl in Hin; [|contradiction].
      destruct Hin as [Hin|[]]. right. congruence.
Qed.

Transparent go_copy zeros.
End EchoTurns.

(** A frame that has arrived whole: the turn echoes it under the
    second draw and the loop goes on, without a print. *)
Lemma echo_turn_run :
  let srv := Part000.NewServer (Part000.NewReader boxB) (Part000.NewWriter boxB) in
  let w := start (incoming [Data (frame_of hello draw1)] [Data draw2]) in
  let turn := Part000.handle_turn sim_io toy srv w in
  fst turn = Ok true /\
  outbox (st (snd turn)) = [frame_of hello draw2] /\
  writes (trace (snd turn)) = [EvWrite (frame_of hello draw2) 45 None] /\
  (forall err : error, ~ In (EvPrint err) (trace (snd turn))).
Proof.
  intros srv w turn.
  set (frame := frame_of hello draw1).
  set (s1 := incoming [] [Data draw2]).
  set (s2 := incoming [] []).
  set (s3 := {| dial_error := None; inbox := []; rng := [];
                write_errors := []; outbox := [frame_of hello draw2] |}).
  destruct (@handle_turn_echoes sim sim_io toy toy_open_seal toy_seal_length
              srv w a_pub b_priv hello draw1 draw2
              (frame ++ zeros 979) s1 s2 s3 45 None)
    as (Hres & Hst & Hwr & Hpr);
    try reflexivity; try (vm_compute; lia); try (vm_compute; reflexivity).
  fold turn in Hres, Hst, Hwr, Hpr.
  split; [exact Hres|].
  split; [now rewrite Hst|].
  split; [exact Hwr|].
  intros err Hin. destruct (Hpr err Hin) as [[]|Hnone]. discriminate.
Defined.

(** The end of the stream ends the loop silently; a reset of the
    connection (error 104) ends it with a print. *)
Lemma read_error_ends_loop_run :
  let srv := Part000.NewServer (Part000.NewReader boxB) (Part000.NewWriter boxB) in
  Part000.handle_loop sim_io toy 1 srv (start (incoming [] []))
    = (Ok Part000.Returned,
       World (incoming [] []) [EvRead 1024 0 (Some EOF) (zeros 1024)]) /\
  Part000.handle_loop sim_io toy 1 srv (start (incoming [Fail (OSError 104)] []))
    = (Ok Part000.Returned,
       World (incoming [] [])
         [EvRead 1024 0 (Some (OSError 104)) (zeros 1024);
          EvPrint (OSError 104)]).
Proof.
  intros srv. split.
  - assert (Hrd : io_read sim_io (st (start (incoming [] [])))
                    (zeros Part000.MAX_BUFFER)
                  = (0, Some EOF, zeros 1024, incoming [] [])) by reflexivity.
    rewrite (handle_returns_on_read_error sim_io toy srv _ Hrd 0).
    reflexivity.
  - assert (Hrd : io_read sim_io (st (start (incoming [Fail (OSError 104)] [])))
                    (zeros Part000.MAX_BUFFER)
                  = (0, Some (OSError 104), zeros 1024, incoming [] []))
      by reflexivity.
    rewrite (handle_returns_on_read_error sim_io toy srv _ Hrd 0).
    reflexivity.
Defined.

(** ** A whole session of the echo server *)

Lemma sim_read_whole (d : option error) (f : bytes) (rest draws : list segment)
      (out : list bytes) (p : bytes) :
  length f <= length p ->
  io_read sim_io (echo_sim d (Data f :: rest) draws out) p
    = (length f, None, f ++ skipn (length f) p, echo_sim d rest draws out).
Proof.
  intros Hle. simpl. unfold sim_read, echo_sim. cbn [inbox].
  rewrite Nat.min_r by lia.
  rewrite Nat.ltb_irrefl, firstn_all. reflexivity.
Qed.

Lemma sim_rand_whole (d : option error) (segs : list segment) (r : bytes)
      (draws : list segment) (out : list bytes) :
  io_rand sim_io (echo_sim d segs (Data r :: draws) out) (length r)
    = (r, None, echo_sim d segs draws out).
Proof.
  simpl. unfold sim_rand, echo_sim. cbn [rng]. now rewrite firstn_all.
Qed.

Lemma sim_write_accepts (d : option error) (segs draws : list segment)
      (out : list bytes) (data : bytes) :
  io_write sim_io (echo_sim d segs draws out) data
    = (length data, None, echo_sim d segs draws (out ++ [data])).
Proof. reflexivity. Qed.

Lemma sim_read_eof (d : option error) (draws : list segment)
      (out : list bytes) (p : bytes) :
  io_read sim_io (echo_sim d [] draws out) p
    = (0, Some EOF, p, echo_sim d [] draws out).
Proof. reflexivity. Qed.

Lemma handle_loop_step {S : Type} (io : IO S) (nacl : NaCl) (fuel : nat)
      (srv : Part000.Server) (w : world S) :
  Part000.handle_loop io nacl (Datatypes.S fuel) srv w =
    match Part000.handle_turn io nacl srv w with
    | (Ok true, w') => Part000.handle_loop io nacl fuel srv w'
    | (Ok false, w') => (Ok Part000.Returned, w')
    | (Panic msg, w') => (Panic msg, w')
    end.
Proof.
  cbn [Part000.handle_loop]. unfold bind.
  now destruct (Part000.handle_turn io nacl srv w) as [[[|]|msg] w'].
Qed.

Section Session.
Context (nacl : NaCl).

Hypothesis open_seal : forall (m : bytes) (n : nonce24) (k : key),
  secretbox_open nacl (secretbox_seal nacl m n k) n k = Some m.
Hypothesis seal_length : forall (m : bytes) (n : nonce24) (k : key),
  length (secretbox_seal nacl m n k) = length m + Overhead.

Opaque go_copy zeros.

(** The echo loop on a script of frames that arrive one per read,
    then the end of the stream. *)
Lemma handle_loop_script
      (srv : Part000.Server) (peers priv : key) (xs : list exchange) :
  Part000.PeersPublicKey (Part000.r_bx (Part000.s_rd srv)) = Some peers ->
  Part000.privateKey (Part000.r_bx (Part000.s_rd srv)) = Some priv ->
  Part000.w_bx (Part000.s_wr srv) = Part000.r_bx (Part000.s_rd srv) ->
  Forall exchange_ok xs ->
  forall (d : option error) (out : list bytes) (tr : list event) (extra : nat),
    let k := precompute nacl peers priv in
    let run := Part000.handle_loop sim_io nacl (Datatypes.S (length xs + extra)) srv
                 (World (echo_sim d (frames_in nacl k xs) (draws_out xs) out) tr) in
    fst run = Ok Part000.Returned /\
    st (snd run) = echo_sim d [] [] (out ++ frames_out nacl k xs) /\
    (forall err : error,
        In (EvPrint err) (trace (snd run)) -> In (EvPrint err) tr).
Proof.
  intros Hp Hk Hsame Hok.
  induction Hok as [|x xs Hx Hxs IH]; intros d out tr extra k run.
  - unfold run. cbn [length Nat.add Part000.handle_loop frames_in draws_out map].
    unfold bind, Part000.handle_turn, Part000.Reader_Read, conn_Read, bind.
    cbn [st]. rewrite sim_read_eof. unfold ret. cbn [error_eqb fst snd st trace].
    cbn [frames_out map]. rewrite app_nil_r.
    split; [reflexivity|]. split; [reflexivity|].
    intros err Hin. apply in_app_or in Hin. destruct Hin as [Hin|Hin]; [exact Hin|].
    simpl in Hin. destruct Hin as [Hin|[]]. discriminate.
  - destruct Hx as (Hnin & Hnout & Hm).
    set (m := ex_message x) in *.
    set (nin := ex_nonce_in x) in *.
    set (nout := ex_nonce_out x) in *.
    set (fin := sealed_frame nacl k m nin).
    set (fout := sealed_frame nacl k m nout).
    assert (Hflen : length fin = 24 + length m + Overhead).
    { unfold fin, sealed_frame. rewrite length_app, seal_length. lia. }
    unfold Overhead in Hflen.
    assert (Hturn :
      Part000.handle_turn sim_io nacl srv
        (World (echo_sim d (frames_in nacl k (x :: xs)) (draws_out (x :: xs)) out) tr)
      = (Ok true,
         World (echo_sim d (frames_in nacl k xs) (draws_out xs) (out ++ [fout]))
           (tr ++ [EvRead Part000.MAX_BUFFER (length fin) None
                     (fin ++ skipn (length fin) (zeros Part000.MAX_BUFFER));
                   EvOpen (secretbox_seal nacl m nin k) nin k;
                   EvRand 24 nout None; EvSeal m nout k;
                   EvWrite fout (length fout) None] ++ []))).
    { apply (@handle_turn_run sim sim_io nacl open_seal seal_length srv
               (World (echo_sim d (frames_in nacl k (x :: xs))
                         (draws_out (x :: xs)) out) tr)
               peers priv m nin nout
               (fin ++ skipn (length fin) (zeros Part000.MAX_BUFFER))
               (echo_sim d (frames_in nacl k xs) (draws_out (x :: xs)) out)
               (echo_sim d (frames_in nacl k xs) (draws_out xs) out)
               (echo_sim d (frames_in nacl k xs) (draws_out xs) (out ++ [fout]))
               (length fout) None
               Hp Hk Hsame Hnin Hnout Hm).
      - cbn [frames_in draws_out map st]. fold m nin. fold k. fold fin.
        apply sim_read_whole. rewrite zeros_length.
        change Part000.MAX_BUFFER with 1024. lia.
      - rewrite length_app, length_skipn, zeros_length.
        change Part000.MAX_BUFFER with 1024. lia.
      - rewrite firstn_app, firstn_all, Nat.sub_diag, firstn_0.
        apply app_nil_r.
      - rewrite <- Hnout at 1. fold nout. apply sim_rand_whole.
      - apply sim_write_accepts. }
    unfold run.
    change (Datatypes.S (length (x :: xs) + extra))
      with (Datatypes.S (Datatypes.S (length xs + extra))).
    rewrite handle_loop_step, Hturn.
    specialize (IH d (out ++ [fout])
                  (tr ++ [EvRead Part000.MAX_BUFFER (length fin) None
                            (fin ++ skipn (length fin) (zeros Part000.MAX_BUFFER));
                          EvOpen (secretbox_seal nacl m nin k) nin k;
                          EvRand 24 nout None; EvSeal m nout k;
                          EvWrite fout (length fout) None] ++ [])
                  extra).
    cbv zeta in IH. fold k in IH.
    destruct IH as (Hres & Hst & Hpr).
    split; [exact Hres|]. split.
    + rewrite Hst. cbn [frames_out map]. fold m nout. fold fout.
      now rewrite <- app_assoc.
    + intros err Hin. specialize (Hpr err Hin).
      apply in_app_or in Hpr. destruct Hpr as [Hpr|Hpr]; [exact Hpr|].
      simpl in Hpr. repeat (destruct Hpr as [Hpr|Hpr]; [discriminate|]).
      contradiction.
Qed.

(** X16: a whole session of [handle] on a connection on which the
    client's 32-byte key arrives in one read, then one frame per read
    (each of a message of at most 984 bytes sealed under the shared
    key), then the end of the stream.  The server sends its public
    key, echoes every message in order, each in one frame under the
    nonce it drew, reads everything, prints no error and returns. *)
Theorem handle_serves_script
    (priv cpub : key) (xs : list exchange) (d : option error) (extra : nat) :
  length priv = 32 -> length cpub = 32 ->
  Forall exchange_ok xs ->
  let k := precompute nacl cpub priv in
  let run := Part000.handle sim_io nacl (Datatypes.S (length xs + extra))
               (start (echo_sim d (Data cpub :: frames_in nacl k xs)
                         (Data priv :: draws_out xs) [])) in
  fst run = Ok Part000.Returned /\
  st (snd run)
    = echo_sim d [] [] (scalar_base nacl priv :: frames_out nacl k xs) /\
  forall err : error, ~ In (EvPrint err) (trace (snd run)).
Proof.
  intros Hpriv Hcpub Hok k run.
  set (bx := Part000.NewBoxKeys (Some (scalar_base nacl priv)) (Some cpub)
               (Some priv)).
  set (srv := Part000.NewServer (Part000.NewReader bx) (Part000.NewWriter bx)).
  assert (Hex :
    Part000.handle_exchange sim_io nacl
      (start (echo_sim d (Data cpub :: frames_in nacl k xs)
                (Data priv :: draws_out xs) []))
    = (Ok (Some srv),
       World (echo_sim d (frames_in nacl k xs) (draws_out xs)
                [scalar_base nacl priv])
         [EvRand 32 priv None;
          EvWrite (scalar_base nacl priv) (length (scalar_base nacl priv)) None;
          EvRead 32 32 None cpub])).
  { unfold Part000.handle_exchange, bind.
    assert (Hr : io_rand sim_io
                   (st (start (echo_sim d (Data cpub :: frames_in nacl k xs)
                                 (Data priv :: draws_out xs) []))) 32
                 = (priv, None,
                    echo_sim d (Data cpub :: frames_in nacl k xs) (draws_out xs) []))
      by (rewrite <- Hpriv; apply sim_rand_whole).
    rewrite (NewBox_run sim_io nacl _ Hr).
    rewrite go_copy_exact by (now rewrite zeros_length).
    cbn [deref Part000.PublicKey Part000.NewBoxKeys ret].
    unfold conn_Write, conn_Read. cbn [st trace start].
    rewrite sim_write_accepts. cbn [st trace app].
    rewrite sim_read_whole by (rewrite zeros_length; lia).
    rewrite Hcpub. unfold slice_to.
    assert (Hkey : cpub ++ skipn 32 (zeros 32) = cpub).
    { rewrite skipn_all2 by (rewrite zeros_length; lia). apply app_nil_r. }
    rewrite Hkey.
    destruct (Nat.leb_spec 32 (length cpub)) as [_|Hlt]; [|lia].
    unfold ret.
    replace (firstn 32 cpub) with cpub
      by (rewrite <- Hcpub; symmetry; apply firstn_all).
    rewrite go_copy_exact by (now rewrite zeros_length).
    rewrite zeros_length. reflexivity. }
  unfold run, Part000.handle, bind. rewrite Hex.
  destruct (@handle_loop_script srv cpub priv xs eq_refl eq_refl eq_refl Hok
              d [scalar_base nacl priv]
              [EvRand 32 priv None;
               EvWrite (scalar_base nacl priv) (length (scalar_base nacl priv)) None;
               EvRead 32 32 None cpub] extra) as (Hres & Hst & Hpr).
  fold k in Hres, Hst, Hpr.
  split; [exact Hres|]. split; [exact Hst|].
  intros err Hin. specialize (Hpr err Hin).
  simpl in Hpr. repeat (destruct Hpr as [Hpr|Hpr]; [discriminate|]).
  contradiction.
Qed.

Transparent go_copy zeros.
End Session.

(** A session with two messages, "hello" and the empty message: the
    server sends its key and the two echoes and returns. *)
Lemma two_message_session :
  let k := toy_precompute a_pub b_priv in
  let xs : list exchange := [(hello, draw1, draw2); ([], draw2, draw1)] in
  let run := Part000.handle sim_io toy 3
               (start (echo_sim None (Data a_pub :: frames_in toy k xs)
                         (Data b_priv :: draws_out xs) [])) in
  fst run = Ok Part000.Returned /\
  outbox (st (snd run)) = [b_pub; frame_of hello draw2; frame_of [] draw1] /\
  inbox (st (snd run)) = [] /\
  forall err : error, ~ In (EvPrint err) (trace (snd run)).
Proof.
  intros k xs run.
  assert (Hok : Forall exchange_ok xs).
  { repeat constructor; vm_compute; lia. }
  destruct (@handle_serves_script toy toy_open_seal toy_seal_length
              b_priv a_pub xs None 0 eq_refl eq_refl Hok)
    as (Hres & Hst & Hpr).
  change (Part000.handle sim_io toy
            (Datatypes.S (length xs + 0))
            (start (echo_sim None
                      (Data a_pub :: frames_in toy (precompute toy a_pub b_priv) xs)
                      (Data b_priv :: draws_out xs) [])))
    with run in Hres, Hst, Hpr.
  split; [exact Hres|].
  split; [rewrite Hst; vm_compute; reflexivity|].
  split; [rewrite Hst; reflexivity|].
  exact Hpr.
Defined.
